(** * Message envelope of xmtp-js: [packages/messaging/src/Message.ts]

    A shallow embedding of [Header], [Message] and [associatedData], and the
    properties of the encode/decode pipeline.

    Layout:
    - [TextCodec]: the platform's [TextEncoder] / [TextDecoder] (UTF-8),
      which [Message.encode] and [Message.decode] call on the plaintext;
    - the wire records of [./proto/message] and the classes of [./crypto];
    - [async]: computations that await the external primitives;
    - [Header], [Message], [associatedData], transcribed from the source;
    - the theorems. *)

From Stdlib Require Import ZArith List String Bool Lia.
Import ListNotations.
Local Open Scope Z_scope.

(** [Uint8Array]: a sequence of octets. *)
Definition bytes := list Z.

(** A JavaScript string: a sequence of 16-bit code units (UTF-16). *)
Definition jsstring := list Z.

(** ** The platform text codec

    [new TextEncoder().encode(s)] and [new TextDecoder().decode(b)], after
    the WHATWG Encoding standard: the encoder first turns the string into
    scalar values (a lone surrogate becomes U+FFFD), the decoder is the
    UTF-8 decoder in replacement mode and, [ignoreBOM] being false by
    default, drops a leading U+FEFF. *)
Module TextCodec.

Definition is_lead (c : Z) : bool := (0xD800 <=? c) && (c <=? 0xDBFF).
Definition is_trail (c : Z) : bool := (0xDC00 <=? c) && (c <=? 0xDFFF).

(** Conversion of a string to scalar values (WebIDL, USVString). *)
Fixpoint to_scalars (s : jsstring) : list Z :=
  match s with
  | [] => []
  | c :: rest =>
      if is_lead c then
        match rest with
        | [] => [0xFFFD]
        | d :: rest' =>
            if is_trail d
            then (0x10000 + 0x400 * Z.land c 0x3FF + Z.land d 0x3FF)
                   :: to_scalars rest'
            else 0xFFFD :: to_scalars rest
        end
      else if is_trail c then 0xFFFD :: to_scalars rest
      else c :: to_scalars rest
  end.

(** The code units of a list of code points. *)
Definition code_units (cp : Z) : jsstring :=
  if cp <=? 0xFFFF then [cp]
  else [0xD800 + Z.shiftr (cp - 0x10000) 10;
        0xDC00 + Z.land (cp - 0x10000) 0x3FF].

Definition from_scalars (l : list Z) : jsstring := flat_map code_units l.

(** UTF-8 encoder: the continuation bytes of [cp], [count] of them. *)
Fixpoint continuation (cp : Z) (count : nat) : bytes :=
  match count with
  | O => []
  | S n =>
      Z.lor 0x80 (Z.land (Z.shiftr cp (6 * Z.of_nat n)) 0x3F)
        :: continuation cp n
  end.

Definition utf8_encode_scalar (cp : Z) : bytes :=
  if cp <=? 0x7F then [cp]
  else
    let '(count, offset) :=
      if cp <=? 0x7FF then (1%nat, 0xC0)
      else if cp <=? 0xFFFF then (2%nat, 0xE0)
      else (3%nat, 0xF0) in
    (Z.shiftr cp (6 * Z.of_nat count) + offset) :: continuation cp count.

Definition utf8_encode (l : list Z) : bytes := flat_map utf8_encode_scalar l.

(** UTF-8 decoder: its state and the handler of one byte. *)
Record decoder : Type := mkDecoder {
  code_point : Z;
  bytes_seen : Z;
  bytes_needed : Z;
  lower_boundary : Z;
  upper_boundary : Z
}.

Definition initial : decoder := mkDecoder 0 0 0 0x80 0xBF.

Inductive handled : Type :=
| Continue              (* more bytes are needed *)
| CodePoint (cp : Z)    (* one code point is complete *)
| Invalid               (* error *)
| InvalidRestore.       (* error, and the byte is read again *)

Definition between (lo x hi : Z) : bool := (lo <=? x) && (x <=? hi).

Definition handler (d : decoder) (b : Z) : decoder * handled :=
  if bytes_needed d =? 0 then
    if between 0x00 b 0x7F then (d, CodePoint b)
    else if between 0xC2 b 0xDF then
      (mkDecoder (Z.land b 0x1F) (bytes_seen d) 1
                 (lower_boundary d) (upper_boundary d), Continue)
    else if between 0xE0 b 0xEF then
      (mkDecoder (Z.land b 0xF) (bytes_seen d) 2
                 (if b =? 0xE0 then 0xA0 else lower_boundary d)
                 (if b =? 0xED then 0x9F else upper_boundary d), Continue)
    else if between 0xF0 b 0xF4 then
      (mkDecoder (Z.land b 0x7) (bytes_seen d) 3
                 (if b =? 0xF0 then 0x90 else lower_boundary d)
                 (if b =? 0xF4 then 0x8F else upper_boundary d), Continue)
    else (d, Invalid)
  else if negb (between (lower_boundary d) b (upper_boundary d)) then
    (initial, InvalidRestore)
  else
    let cp := Z.lor (Z.shiftl (code_point d) 6) (Z.land b 0x3F) in
    let seen := bytes_seen d + 1 in
    if negb (seen =? bytes_needed d)
    then (mkDecoder cp seen (bytes_needed d) 0x80 0xBF, Continue)
    else (initial, CodePoint cp).

(** The decoder run over the input, errors replaced by U+FFFD. *)
Fixpoint utf8_decode (d : decoder) (input : bytes) : list Z :=
  match input with
  | [] => if bytes_needed d =? 0 then [] else [0xFFFD]
  | b :: rest =>
      match handler d b with
      | (d', Continue) => utf8_decode d' rest
      | (d', CodePoint cp) => cp :: utf8_decode d' rest
      | (d', Invalid) => 0xFFFD :: utf8_decode d' rest
      | (d', InvalidRestore) =>
          0xFFFD ::
            match handler d' b with
            | (d'', Continue) => utf8_decode d'' rest
            | (d'', CodePoint cp) => cp :: utf8_decode d'' rest
            | (d'', _) => 0xFFFD :: utf8_decode d'' rest
            end
      end
  end.

(** [ignoreBOM] is false: a leading U+FEFF is not part of the output. *)
Definition strip_bom (l : list Z) : list Z :=
  match l with
  | c :: rest => if c =? 0xFEFF then rest else l
  | [] => []
  end.

Definition TextEncoder_encode (s : jsstring) : bytes :=
  utf8_encode (to_scalars s).

Definition TextDecoder_decode (b : bytes) : jsstring :=
  from_scalars (strip_bom (utf8_decode initial b)).

(** A string without lone surrogates, all of whose code units are 16-bit. *)
Fixpoint well_formed (s : jsstring) : bool :=
  match s with
  | [] => true
  | c :: rest =>
      if is_lead c then
        match rest with
        | [] => false
        | d :: rest' => is_trail d && well_formed rest'
        end
      else negb (is_trail c) && between 0 c 0xFFFF && well_formed rest
  end.

Definition starts_with_bom (s : jsstring) : bool :=
  match s with
  | c :: _ => c =? 0xFEFF
  | [] => false
  end.

(** A Unicode scalar value: a code point that is not a surrogate. *)
Definition scalar (c : Z) : Prop :=
  0 <= c < 0xD800 \/ 0xDFFF < c <= 0x10FFFF.

End TextCodec.

(** ** Abstract types of the imported modules

    [./crypto] and [./proto/message] are imported by [Message.ts]; the key
    and payload types are theirs. *)
Class KeyMaterial : Type := {
  PublicKey : Type;
  PrivateKey : Type;
  Secret : Type;
  (* the payload of the one supported AEAD suite *)
  Aes256GcmHkdfSha256 : Type
}.

(** A thrown JavaScript [Error]. *)
Inductive exn : Type :=
| Error (message : string).

(** Modelled from the spec: the declarations of [proto.KeyBundle] and of
    the class [KeyBundle] that implements it are not in src/. A bundle is an
    identity key and a pre-key (the design's data model); [Message.decode]
    reads [preKey] and finds it absent or present. One record stands for
    the class and for its wire form; an absent field is [undefined]. *)
Module KeyBundle.
Section Defs.
Context {KM : KeyMaterial}.
Record t : Type := mk {
  identityKey : option PublicKey;
  preKey : option PublicKey
}.
End Defs.
End KeyBundle.

(** Modelled from the spec: the declaration of [PrivateKeyBundle] is not in
    src/. [Message.decode] reads [preKey] (the active pre-key, possibly
    [undefined]) and [preKeys] (the stored pre-keys); the identity key is
    the one the design's data model gives every bundle. *)
Module PrivateKeyBundle.
Section Defs.
Context {KM : KeyMaterial}.
Record t : Type := mk {
  identityKey : option PrivateKey;
  preKey : option PrivateKey;
  preKeys : list PrivateKey
}.
End Defs.
End PrivateKeyBundle.

(** Modelled from the spec: the declarations of [proto.Ciphertext] and of
    the class [Ciphertext] that implements it are not in src/.
    [Message.decode] reads the payload of the one supported suite,
    [aes256GcmHkdfSha256], and finds it absent or present. *)
Module Ciphertext.
Section Defs.
Context {KM : KeyMaterial}.
Record t : Type := mk {
  aes256GcmHkdfSha256 : option Aes256GcmHkdfSha256
}.
End Defs.
End Ciphertext.

(** [./proto/message]: the wire messages, with the fields [Header] and
    [Message] implement, and their codec. *)
Module proto.
Section Defs.
Context {KM : KeyMaterial}.

Record Message_Header : Type := mkMessage_Header {
  sender : option KeyBundle.t;
  recipient : option KeyBundle.t
}.

Record Message : Type := mkMessage {
  header : option Message_Header;
  ciphertext : option Ciphertext.t
}.

(** [X.encode(v).finish()] and [X.decode(bytes)]; the reader throws on
    malformed input. *)
Class Codec : Type := {
  Message_Header_encode : Message_Header -> bytes;
  Message_Header_decode : bytes -> exn + Message_Header;
  Message_encode : Message -> bytes;
  Message_decode : bytes -> exn + Message
}.
End Defs.
End proto.

(** [./crypto]: the synchronous operations [Message.ts] uses. The
    constructors are conversions from the wire form (section 6 of the
    design lists them without a failure mode). *)
Class Crypto {KM : KeyMaterial} : Type := {
  PublicKey_new : PublicKey -> PublicKey;
  KeyBundle_new : KeyBundle.t -> KeyBundle.t;
  Ciphertext_new : Ciphertext.t -> Ciphertext.t;
  (* PrivateKey.matches(PublicKey) *)
  matches : PrivateKey -> PublicKey -> bool;
  (* PrivateKeyBundle.getKeyBundle() *)
  getKeyBundle : PrivateKeyBundle.t -> KeyBundle.t
}.

(** ** Asynchronous computations

    The three primitives [Message.ts] awaits. Each may reject. *)
Inductive call {KM : KeyMaterial} : Type -> Type :=
| SharedSecret (self : PrivateKeyBundle.t) (peer : KeyBundle.t)
               (isRecipient : bool) : call Secret
| Encrypt (plain : bytes) (secret : Secret) (ad : bytes) : call Ciphertext.t
| Decrypt (encrypted : Ciphertext.t) (secret : Secret) (ad : bytes)
    : call bytes.

(** An [async] function body: it returns, throws, or awaits a primitive and
    goes on with its result. A rejected await rejects the whole function
    (there is no [try] in [Message.ts]). *)
Inductive async {KM : KeyMaterial} (A : Type) : Type :=
| Return (a : A)
| Throw (e : exn)
| Await {X : Type} (c : call X) (k : X -> async A).

Arguments Return {KM A} a.
Arguments Throw {KM A} e.
Arguments Await {KM A X} c k.

Fixpoint bind {KM : KeyMaterial} {A B : Type}
         (m : async A) (f : A -> async B) : async B :=
  match m with
  | Return a => f a
  | Throw e => Throw e
  | Await c k => Await c (fun x => bind (k x) f)
  end.

Definition await {KM : KeyMaterial} {X : Type} (c : call X) : async X :=
  Await c Return.

Notation "x <- m ;; k" := (bind m (fun x => k))
  (at level 61, m at next level, right associativity).

Notation "'present' x <- o 'or' 'throw' e ;; k" :=
  (match o with Some x => k | None => Throw e end)
  (at level 61, x name, o at next level, e at next level,
   right associativity).

(** One invocation of a primitive. *)
Inductive event {KM : KeyMaterial} : Type :=
| Invoked {X : Type} (c : call X).

(** The environment: how the primitives answer. [World] is whatever they
    depend on besides their arguments (the random salt and nonce of
    [encrypt], for instance). *)
Class Runtime {KM : KeyMaterial} : Type := {
  World : Type;
  perform : forall X : Type, call X -> World -> (exn + X) * World
}.

Record outcome {KM : KeyMaterial} {RT : Runtime} (A : Type) : Type :=
  mkOutcome {
    result : exn + A;
    world : World;
    invoked : list event   (* the primitives invoked, in order *)
  }.
Arguments mkOutcome {KM RT A} result world invoked.
Arguments result {KM RT A} o.
Arguments world {KM RT A} o.
Arguments invoked {KM RT A} o.

Fixpoint run {KM : KeyMaterial} {RT : Runtime} {A : Type}
         (p : async A) (w : World) : outcome A :=
  match p with
  | Return a => mkOutcome (inr a) w []
  | Throw e => mkOutcome (inl e) w []
  | Await c k =>
      match perform _ c w with
      | (inl e, w') => mkOutcome (inl e) w' [Invoked c]
      | (inr x, w') =>
          let o := run (k x) w' in
          mkOutcome (result o) (world o) (Invoked c :: invoked o)
      end
  end.

(** ** [Header] *)
Module Header.
Section Defs.
Context {KM : KeyMaterial} {C : Crypto} {P : proto.Codec}.

Record t : Type := mk {
  sender : option KeyBundle.t;
  recipient : option KeyBundle.t;
  decrypted : option jsstring
}.

Definition new (obj : proto.Message_Header) : t :=
  {| sender :=
       match proto.sender obj with
       | Some s => Some (KeyBundle_new s)
       | None => None
       end;
     recipient :=
       match proto.recipient obj with
       | Some r => Some (KeyBundle_new r)
       | None => None
       end;
     decrypted := None |}.

(** [Header implements proto.Message_Header]: the fields the wire
    encoder reads. *)
Definition wire (h : t) : proto.Message_Header :=
  {| proto.sender := sender h; proto.recipient := recipient h |}.

Definition toBytes (h : t) : bytes :=
  proto.Message_Header_encode (wire h).

Definition fromBytes (b : bytes) : exn + t :=
  match proto.Message_Header_decode b with
  | inl e => inl e
  | inr obj => inr (new obj)
  end.
End Defs.
End Header.

(** ** [associatedData]

    Serializes the message header into bytes, to be included in the
    encryption as associated data. *)
Record AssociatedData {KM : KeyMaterial} : Type := mkAssociatedData {
  ad_sender : KeyBundle.t;
  ad_recipient : KeyBundle.t
}.

Definition associatedData {KM : KeyMaterial} {P : proto.Codec}
           (header : AssociatedData) : bytes :=
  proto.Message_Header_encode
    {| proto.sender := Some (ad_sender header);
       proto.recipient := Some (ad_recipient header) |}.

(** ** [Message] *)
Module Message.
Section Defs.
Context {KM : KeyMaterial} {C : Crypto} {P : proto.Codec}.

Record t : Type := mk {
  header : option Header.t;
  ciphertext : option Ciphertext.t;
  decrypted : option jsstring
}.

Definition new (obj : proto.Message) : t :=
  {| header :=
       match proto.header obj with
       | Some h => Some (Header.new h)
       | None => None
       end;
     ciphertext :=
       match proto.ciphertext obj with
       | Some c => Some (Ciphertext_new c)
       | None => None
       end;
     decrypted := None |}.

(** [msg.decrypted = s] *)
Definition set_decrypted (msg : t) (s : jsstring) : t :=
  {| header := header msg;
     ciphertext := ciphertext msg;
     decrypted := Some s |}.

(** [Message implements proto.Message]. *)
Definition wire (m : t) : proto.Message :=
  {| proto.header := option_map Header.wire (header m);
     proto.ciphertext := ciphertext m |}.

Definition toBytes (m : t) : bytes := proto.Message_encode (wire m).

Definition fromBytes (b : bytes) : exn + t :=
  match proto.Message_decode b with
  | inl e => inl e
  | inr obj => inr (new obj)
  end.

(** Encrypt the plaintext with a symmetric key derived from the peers' key
    bundles. *)
Definition encrypt (plain : bytes) (sender : PrivateKeyBundle.t)
           (recipient : KeyBundle.t) : async Ciphertext.t :=
  secret <- await (SharedSecret sender recipient false) ;;
  let ad := associatedData
              {| ad_sender := getKeyBundle sender;
                 ad_recipient := recipient |} in
  await (Encrypt plain secret ad).

(** Decrypt the encrypted content using a symmetric key derived from the
    peers' key bundles. *)
Definition decrypt (encrypted : Ciphertext.t) (sender : KeyBundle.t)
           (recipient : PrivateKeyBundle.t) : async bytes :=
  secret <- await (SharedSecret recipient sender true) ;;
  let ad := associatedData
              {| ad_sender := sender;
                 ad_recipient := getKeyBundle recipient |} in
  await (Decrypt encrypted secret ad).

(** Encrypt and serialize the message. *)
Definition encode (sender : PrivateKeyBundle.t) (recipient : KeyBundle.t)
           (message : jsstring) : async t :=
  let bytes := TextCodec.TextEncoder_encode message in
  ciphertext <- encrypt bytes sender recipient ;;
  let msg :=
    new {| proto.header :=
             Some {| proto.sender := Some (getKeyBundle sender);
                     proto.recipient := Some recipient |};
           proto.ciphertext := Some ciphertext |} in
  Return (set_decrypted msg message).

(** Deserialize and decrypt the message. [if (!x) throw e] is
    [present v <- x or throw e]: an absent field is [undefined], a present
    one is an object. *)
Definition decode (recipient : PrivateKeyBundle.t) (bytes : bytes)
  : async t :=
  match proto.Message_decode bytes with
  | inl e => Throw e
  | inr message =>
    present header <- proto.header message
      or throw (Error "missing message header") ;;
    present header_sender <- proto.sender header
      or throw (Error "missing message sender") ;;
    present header_recipient <- proto.recipient header
      or throw (Error "missing message recipient") ;;
    present header_preKey <- KeyBundle.preKey header_recipient
      or throw (Error "missing message recipient pre key") ;;
    let sender := KeyBundle_new header_sender in
    present preKey <- PrivateKeyBundle.preKey recipient
      or throw (Error "missing message recipient pre key") ;;
    if (List.length (PrivateKeyBundle.preKeys recipient) =? 0)%nat
    then Throw (Error "missing pre key")
    else
    if negb (matches preKey (PublicKey_new header_preKey))
    then Throw (Error "recipient pre-key mismatch")
    else
    present message_ciphertext <- proto.ciphertext message
      or throw (Error "missing message ciphertext") ;;
    present _payload <- Ciphertext.aes256GcmHkdfSha256 message_ciphertext
      or throw (Error "missing message ciphertext") ;;
    let ciphertext := Ciphertext_new message_ciphertext in
    bytes <- decrypt ciphertext sender recipient ;;
    let msg := new message in
    Return (set_decrypted msg (TextCodec.TextDecoder_decode bytes))
  end.
End Defs.
End Message.

(** ** Contracts of the imported code

    What the properties below assume of the code that is not in
    [Message.ts]. *)
Section Contracts.
Context {KM : KeyMaterial} {C : Crypto} {P : proto.Codec} {RT : Runtime}.

(** Modelled from the spec: the codec of [./proto/message] is not in src/.
    The design (section 6) has it preserve the presence and absence of
    fields through round trips: it reads back what it wrote. *)
Definition message_codec_contract : Prop :=
  forall m : proto.Message,
    proto.Message_decode (proto.Message_encode m) = inr m.

(** Modelled from the spec: the same contract, for [proto.Message_Header]. *)
Definition header_codec_contract : Prop :=
  forall h : proto.Message_Header,
    proto.Message_Header_decode (proto.Message_Header_encode h) = inr h.

(** The class constructors keep the contents of the wire value. *)
Definition KeyBundle_copy_contract : Prop :=
  forall kb : KeyBundle.t, KeyBundle_new kb = kb.

Definition Ciphertext_copy_contract : Prop :=
  forall c : Ciphertext.t, Ciphertext_new c = c.

(** Key agreement is symmetric across the role flag: the secret a sender
    derived against the recipient's bundle is the one the recipient derives
    against the sender's bundle. *)
Definition shared_secret_symmetric : Prop :=
  forall (a b : PrivateKeyBundle.t) (secret : Secret) (w w' : World),
    perform _ (SharedSecret a (getKeyBundle b) false) w = (inr secret, w') ->
    forall w1, exists w2,
      perform _ (SharedSecret b (getKeyBundle a) true) w1 = (inr secret, w2).

(** [decrypt] inverts [encrypt] under the same secret and associated data,
    and [encrypt] produces the payload of the supported suite. *)
Definition aead_decrypt_inverts_encrypt : Prop :=
  forall (plain : bytes) (secret : Secret) (ad : bytes) (c : Ciphertext.t)
         (w w' : World),
    perform _ (Encrypt plain secret ad) w = (inr c, w') ->
    Ciphertext.aes256GcmHkdfSha256 c <> None /\
    forall w1, exists w2,
      perform _ (Decrypt c secret ad) w1 = (inr plain, w2).

(** The recipient's private bundle can receive: it has an active pre-key
    and a stored one, and the active pre-key matches the pre-key of the
    bundle it publishes. *)
Definition recipient_ready (recipient : PrivateKeyBundle.t) : Prop :=
  exists (preKey : PrivateKey) (published : PublicKey),
    PrivateKeyBundle.preKey recipient = Some preKey /\
    PrivateKeyBundle.preKeys recipient <> [] /\
    KeyBundle.preKey (getKeyBundle recipient) = Some published /\
    matches preKey (PublicKey_new published) = true.

(** The round trip of one plaintext: whenever [encode] succeeds, [decode]
    of the serialized message succeeds and yields the plaintext. *)
Definition round_trip_at (sender recipient : PrivateKeyBundle.t)
           (plaintext : jsstring) : Prop :=
  forall (w : World) (msg : Message.t),
    result (run (Message.encode sender (getKeyBundle recipient) plaintext) w)
      = inr msg ->
    forall w1 : World, exists out : Message.t,
      result (run (Message.decode recipient (Message.toBytes msg)) w1)
        = inr out /\
      Message.decrypted out = Some plaintext.

(** [decode] rejects the input before any decryption is attempted: the run
    fails with [Error reason], the world is untouched and no primitive
    (key agreement, AEAD) has been invoked. *)
Definition rejects (recipient : PrivateKeyBundle.t) (bytes : bytes)
           (w : World) (reason : string) : Prop :=
  run (Message.decode recipient bytes) w
    = mkOutcome (inl (Error reason)) w [].

(** The [sharedSecret] invocation recorded by an event, if it is one. *)
Definition shared_secret_call (e : event)
  : option (PrivateKeyBundle.t * KeyBundle.t * bool) :=
  match e with
  | Invoked c =>
      match c with
      | SharedSecret self peer isRecipient => Some (self, peer, isRecipient)
      | _ => None
      end
  end.

Fixpoint shared_secret_calls (l : list event)
  : list (PrivateKeyBundle.t * KeyBundle.t * bool) :=
  match l with
  | [] => []
  | e :: rest =>
      match shared_secret_call e with
      | Some x => x :: shared_secret_calls rest
      | None => shared_secret_calls rest
      end
  end.

End Contracts.

(** ** Observations of a run

    What a log of invocations says about the two AEAD primitives, and what
    a result shows of the plaintext. *)
Section Observations.
Context {KM : KeyMaterial} {C : Crypto} {P : proto.Codec}.

(** The arguments of an [encrypt] invocation: plaintext, secret,
    associated data. *)
Definition encrypt_call (e : event) : option (bytes * Secret * bytes) :=
  match e with
  | Invoked c =>
      match c with
      | Encrypt plain secret ad => Some (plain, secret, ad)
      | _ => None
      end
  end.

Fixpoint encrypt_calls (l : list event) : list (bytes * Secret * bytes) :=
  match l with
  | [] => []
  | e :: rest =>
      match encrypt_call e with
      | Some x => x :: encrypt_calls rest
      | None => encrypt_calls rest
      end
  end.

(** The arguments of a [decrypt] invocation: ciphertext, secret,
    associated data. *)
Definition decrypt_call (e : event)
  : option (Ciphertext.t * Secret * bytes) :=
  match e with
  | Invoked c =>
      match c with
      | Decrypt encrypted secret ad => Some (encrypted, secret, ad)
      | _ => None
      end
  end.

Fixpoint decrypt_calls (l : list event)
  : list (Ciphertext.t * Secret * bytes) :=
  match l with
  | [] => []
  | e :: rest =>
      match decrypt_call e with
      | Some x => x :: decrypt_calls rest
      | None => decrypt_calls rest
      end
  end.

(** The error of a failed call, or the [decrypted] field of the message a
    successful one returned. *)
Definition decrypted_of (r : exn + Message.t) : exn + option jsstring :=
  match r with
  | inl e => inl e
  | inr msg => inr (Message.decrypted msg)
  end.

End Observations.

(** A string all of whose code units are 16-bit. *)
Definition sixteen_bit (s : jsstring) : Prop :=
  Forall (fun c => 0 <= c <= 0xFFFF) s.

(** What the text codec makes of a string on the way through: lone
    surrogates become U+FFFD and a leading U+FEFF is dropped. *)
Definition through_text_codec (s : jsstring) : jsstring :=
  TextCodec.from_scalars (TextCodec.strip_bom (TextCodec.to_scalars s)).

(** ** A small instance

    Integers as keys, a public key being three times the private one, a
    Diffie-Hellman product as agreement, an AEAD that seals by tagging, and
    a tag-length codec. It runs the pipeline on concrete inputs. *)
Module Toy.

Definition keys : KeyMaterial :=
  {| PublicKey := Z; PrivateKey := Z; Secret := Z;
     Aes256GcmHkdfSha256 := bytes |}.
#[local] Existing Instance keys.

Definition public (x : Z) : Z := 3 * x.

Definition crypto : Crypto :=
  {| PublicKey_new := fun k => k;
     KeyBundle_new := fun kb => kb;
     Ciphertext_new := fun c => c;
     matches := fun priv pub => public priv =? pub;
     getKeyBundle := fun b =>
       {| KeyBundle.identityKey :=
            option_map public (PrivateKeyBundle.identityKey b);
          KeyBundle.preKey :=
            option_map public (PrivateKeyBundle.preKey b) |} |}.
#[local] Existing Instance crypto.

Definition put_key (k : option Z) : bytes :=
  match k with
  | None => [0]
  | Some k => [1; k]
  end.

Definition get_key (b : bytes) : option (option Z * bytes) :=
  match b with
  | 0 :: rest => Some (None, rest)
  | 1 :: k :: rest => Some (Some k, rest)
  | _ => None
  end.

Definition put_bundle (kb : KeyBundle.t) : bytes :=
  put_key (KeyBundle.identityKey kb) ++ put_key (KeyBundle.preKey kb).

Definition get_bundle (b : bytes) : option (KeyBundle.t * bytes) :=
  match get_key b with
  | Some (i, b1) =>
      match get_key b1 with
      | Some (p, b2) => Some (KeyBundle.mk i p, b2)
      | None => None
      end
  | None => None
  end.

Definition put_opt_bundle (o : option KeyBundle.t) : bytes :=
  match o with
  | None => [0]
  | Some kb => 1 :: put_bundle kb
  end.

Definition get_opt_bundle (b : bytes) : option (option KeyBundle.t * bytes) :=
  match b with
  | 0 :: rest => Some (None, rest)
  | 1 :: rest =>
      match get_bundle rest with
      | Some (kb, b1) => Some (Some kb, b1)
      | None => None
      end
  | _ => None
  end.

Definition put_header (h : proto.Message_Header) : bytes :=
  put_opt_bundle (proto.sender h) ++ put_opt_bundle (proto.recipient h).

Definition get_header (b : bytes) : option (proto.Message_Header * bytes) :=
  match get_opt_bundle b with
  | Some (s, b1) =>
      match get_opt_bundle b1 with
      | Some (r, b2) => Some (proto.mkMessage_Header s r, b2)
      | None => None
      end
  | None => None
  end.

Definition put_ciphertext (o : option Ciphertext.t) : bytes :=
  match o with
  | None => [0]
  | Some c =>
      match Ciphertext.aes256GcmHkdfSha256 c with
      | None => [1; 0]
      | Some payload => 1 :: 1 :: payload
      end
  end.

Definition get_ciphertext (b : bytes) : option (option Ciphertext.t) :=
  match b with
  | [0] => Some None
  | [1; 0] => Some (Some (Ciphertext.mk None))
  | 1 :: 1 :: payload => Some (Some (Ciphertext.mk (Some payload)))
  | _ => None
  end.

Definition put_message (m : proto.Message) : bytes :=
  match proto.header m with
  | None => [0]
  | Some h => 1 :: put_header h
  end ++ put_ciphertext (proto.ciphertext m).

Definition get_message (b : bytes) : option proto.Message :=
  match b with
  | 0 :: rest =>
      match get_ciphertext rest with
      | Some c => Some (proto.mkMessage None c)
      | None => None
      end
  | 1 :: rest =>
      match get_header rest with
      | Some (h, b1) =>
          match get_ciphertext b1 with
          | Some c => Some (proto.mkMessage (Some h) c)
          | None => None
          end
      | None => None
      end
  | _ => None
  end.

Definition codec : proto.Codec :=
  {| proto.Message_Header_encode := put_header;
     proto.Message_Header_decode := fun b =>
       match get_header b with
       | Some (h, []) => inr h
       | _ => inl (Error "malformed header")
       end;
     proto.Message_encode := put_message;
     proto.Message_decode := fun b =>
       match get_message b with
       | Some m => inr m
       | None => inl (Error "malformed message")
       end |}.
#[local] Existing Instance codec.

Definition sharedSecret (self : PrivateKeyBundle.t) (peer : KeyBundle.t)
           (isRecipient : bool) : exn + Z :=
  match PrivateKeyBundle.identityKey self, PrivateKeyBundle.preKey self,
        KeyBundle.identityKey peer, KeyBundle.preKey peer with
  | Some i, Some p, Some peer_i, Some peer_p =>
      let '(dh1, dh2) :=
        if isRecipient then (p * peer_i, i * peer_p)
        else (i * peer_p, p * peer_i) in
      inr (dh1 * 65537 + dh2)
  | _, _, _, _ => inl (Error "missing key")
  end.

Fixpoint bytes_eqb (a b : bytes) : bool :=
  match a, b with
  | [], [] => true
  | x :: a', y :: b' => (x =? y) && bytes_eqb a' b'
  | _, _ => false
  end.

Definition seal (nonce : Z) (plain : bytes) (secret : Z) (ad : bytes)
  : Ciphertext.t :=
  Ciphertext.mk
    (Some (nonce :: secret :: Z.of_nat (List.length ad) :: ad ++ plain)).

Definition unseal (c : Ciphertext.t) (secret : Z) (ad : bytes)
  : exn + bytes :=
  match Ciphertext.aes256GcmHkdfSha256 c with
  | Some (_ :: s :: n :: body) =>
      if (s =? secret) && (n =? Z.of_nat (List.length ad))
         && bytes_eqb (firstn (List.length ad) body) ad
      then inr (skipn (List.length ad) body)
      else inl (Error "authentication failed")
  | _ => inl (Error "invalid ciphertext")
  end.

Definition runtime : Runtime :=
  {| World := Z;
     perform := fun X c =>
       match c in call X return Z -> (exn + X) * Z with
       | SharedSecret self peer isRecipient =>
           fun w => (sharedSecret self peer isRecipient, w)
       | Encrypt plain secret ad =>
           fun w => (inr (seal w plain secret ad), w + 1)
       | Decrypt c secret ad => fun w => (unseal c secret ad, w)
       end |}.
#[local] Existing Instance runtime.

Definition alice : PrivateKeyBundle.t :=
  PrivateKeyBundle.mk (Some 5) (Some 7) [7].

Definition bob : PrivateKeyBundle.t :=
  PrivateKeyBundle.mk (Some 11) (Some 13) [13].

(** "hé€" and U+1F600, a surrogate pair. *)
Definition greeting : jsstring := [0x68; 0xE9; 0x20AC; 0xD83D; 0xDE00].

(** The bundles the two publish. *)
Definition alice_bundle : KeyBundle.t := KeyBundle.mk (Some 15) (Some 21).
Definition bob_bundle : KeyBundle.t := KeyBundle.mk (Some 33) (Some 39).

(** Bob's keys with the active pre-key kept and the store emptied, and
    with no active pre-key. *)
Definition bob_without_store : PrivateKeyBundle.t :=
  PrivateKeyBundle.mk (Some 11) (Some 13) [].
Definition bob_without_preKey : PrivateKeyBundle.t :=
  PrivateKeyBundle.mk (Some 11) None [13].

(** A bundle that names bob's identity and another pre-key, one that names
    bob's pre-key under another identity, and one that names no pre-key. *)
Definition stale_bundle : KeyBundle.t := KeyBundle.mk (Some 33) (Some 40).
Definition other_identity : KeyBundle.t := KeyBundle.mk (Some 999) (Some 39).
Definition no_preKey_bundle : KeyBundle.t := KeyBundle.mk (Some 33) None.

(** A bundle with neither key. *)
Definition empty_bundle : KeyBundle.t := KeyBundle.mk None None.

Definition payload : Ciphertext.t := Ciphertext.mk (Some [0; 77; 0; 104]).

(** A wire message with a header. *)
Definition envelope (s r : option KeyBundle.t) (c : option Ciphertext.t)
  : proto.Message :=
  proto.mkMessage (Some (proto.mkMessage_Header s r)) c.

(** The bytes [Message.encode(alice, bob's bundle, s).toBytes()] in world
    [w], when [encode] succeeds. *)
Definition sent (s : jsstring) (w : Z) : option bytes :=
  match result (run (Message.encode alice (getKeyBundle bob) s) w) with
  | inr msg => Some (Message.toBytes msg)
  | inl _ => None
  end.

(** The bytes of alice's greeting to bob, sealed in world 0. *)
Definition greeting_bytes : bytes :=
  [1; 1; 1; 15; 1; 21; 1; 1; 33; 1; 39; 1; 1; 0; 12779946; 10; 1; 1;
   15; 1; 21; 1; 1; 33; 1; 39; 104; 195; 169; 226; 130; 172; 240; 159;
   152; 128].

(** A message object with a cached plaintext. *)
Definition cached_message : Message.t :=
  Message.mk (Some (Header.mk (Some alice_bundle) (Some bob_bundle) None))
             (Some payload) (Some greeting).

(** A plaintext with a leading U+FEFF and a lone surrogate. *)
Definition ragged : jsstring := [0xFEFF; 0x68; 0xD800].

End Toy.

(** * Properties *)

(** ** The text codec: decoding inverts encoding on well-formed strings *)
Module TextCodecFacts.
Import TextCodec.

(** Bit operations of the codec as arithmetic. *)
Lemma lor_disjoint a b : 0 <= b < 64 -> Z.lor (a * 64) b = a * 64 + b.
Proof.
  intros Hb. rewrite <- Z.add_lor_land.
  assert (E : Z.land (a * 64) b = 0).
  { apply Z.bits_inj'. intros n Hn. rewrite Z.land_spec, Z.bits_0.
    destruct (Z.lt_ge_cases n 6) as [Hlt|Hge].
    - change 64 with (2 ^ 6). rewrite Z.mul_pow2_bits_low by lia. reflexivity.
    - replace b with (b mod 2 ^ 6) by (apply Z.mod_small; simpl; lia).
      rewrite Z.mod_pow2_bits_high by lia. apply andb_false_r. }
  rewrite E. lia.
Qed.

Lemma land_low a n m : m = Z.ones n -> 0 <= n -> Z.land a m = a mod 2 ^ n.
Proof. intros -> Hn. apply Z.land_ones, Hn. Qed.

Lemma lor_shiftl_land c b : Z.lor (Z.shiftl c 6) (Z.land b 0x3F) = c * 64 + b mod 64.
Proof.
  rewrite Z.shiftl_mul_pow2 by lia. rewrite (land_low b 6) by (reflexivity || lia).
  change (2 ^ 6) with 64. apply lor_disjoint. apply Z.mod_pos_bound. lia.
Qed.

Lemma lor_0x80 x : Z.lor 0x80 (Z.land x 0x3F) = 128 + x mod 64.
Proof.
  rewrite (land_low x 6) by (reflexivity || lia). change (2 ^ 6) with 64.
  change 128 with (2 * 64). apply lor_disjoint. apply Z.mod_pos_bound. lia.
Qed.

(** Range tests. *)
Lemma between_spec lo x hi : between lo x hi = true <-> lo <= x <= hi.
Proof. unfold between. rewrite andb_true_iff, !Z.leb_le. tauto. Qed.

Lemma between_true lo x hi : lo <= x <= hi -> between lo x hi = true.
Proof. apply between_spec. Qed.

Lemma between_false lo x hi : x < lo \/ hi < x -> between lo x hi = false.
Proof.
  intros H. destruct (between lo x hi) eqn:E; [|reflexivity].
  apply between_spec in E. lia.
Qed.

(** The decoder, one byte at a time. *)
Lemma utf8_decode_cons d b rest :
  utf8_decode d (b :: rest) =
      match handler d b with
      | (d', Continue) => utf8_decode d' rest
      | (d', CodePoint cp) => cp :: utf8_decode d' rest
      | (d', Invalid) => 0xFFFD :: utf8_decode d' rest
      | (d', InvalidRestore) =>
          0xFFFD ::
            match handler d' b with
            | (d'', Continue) => utf8_decode d'' rest
            | (d'', CodePoint cp) => cp :: utf8_decode d'' rest
            | (d'', _) => 0xFFFD :: utf8_decode d'' rest
            end
      end.
Proof. reflexivity. Qed.

Lemma handler_ascii b : 0 <= b <= 0x7F -> handler initial b = (initial, CodePoint b).
Proof. intros H. unfold handler. cbn [bytes_needed initial]. cbn [Z.eqb].
  rewrite between_true by lia. reflexivity. Qed.

Lemma handler_lead2 b : 0xC2 <= b <= 0xDF ->
  handler initial b = (mkDecoder (b mod 32) 0 1 0x80 0xBF, Continue).
Proof.
  intros H. unfold handler. cbn [bytes_needed initial Z.eqb bytes_seen lower_boundary upper_boundary].
  rewrite between_false by lia. rewrite between_true by lia.
  rewrite (land_low b 5) by (reflexivity || lia). reflexivity.
Qed.

Lemma handler_cont cp seen needed lo hi b :
  needed <> 0 -> lo <= b <= hi ->
  handler (mkDecoder cp seen needed lo hi) b =
    if seen + 1 =? needed then (initial, CodePoint (cp * 64 + b mod 64))
    else (mkDecoder (cp * 64 + b mod 64) (seen + 1) needed 0x80 0xBF, Continue).
Proof.
  intros Hn Hb. unfold handler. cbn [bytes_needed bytes_seen code_point lower_boundary upper_boundary].
  destruct (Z.eqb_spec needed 0); [lia|].
  rewrite between_true by lia. cbn [negb]. rewrite lor_shiftl_land.
  destruct (seen + 1 =? needed); reflexivity.
Qed.

Lemma handler_lead3 b : 0xE0 <= b <= 0xEF ->
  handler initial b =
    (mkDecoder (b mod 16) 0 2 (if b =? 0xE0 then 0xA0 else 0x80)
               (if b =? 0xED then 0x9F else 0xBF), Continue).
Proof.
  intros H. unfold handler. cbn [bytes_needed initial Z.eqb bytes_seen lower_boundary upper_boundary].
  rewrite !(between_false _ b) by lia. rewrite between_true by lia.
  rewrite (land_low b 4) by (reflexivity || lia). reflexivity.
Qed.

Lemma handler_lead4 b : 0xF0 <= b <= 0xF4 ->
  handler initial b =
    (mkDecoder (b mod 8) 0 3 (if b =? 0xF0 then 0x90 else 0x80)
               (if b =? 0xF4 then 0x8F else 0xBF), Continue).
Proof.
  intros H. unfold handler. cbn [bytes_needed initial Z.eqb bytes_seen lower_boundary upper_boundary].
  rewrite !(between_false _ b) by lia. rewrite between_true by lia.
  rewrite (land_low b 3) by (reflexivity || lia). reflexivity.
Qed.

(** The bytes the encoder writes, by length. *)
Lemma continuation_S c n :
  continuation c (S n) = (128 + (c / 2 ^ (6 * Z.of_nat n)) mod 64) :: continuation c n.
Proof.
  cbn [continuation]. rewrite lor_0x80, Z.shiftr_div_pow2 by lia. reflexivity.
Qed.

Ltac euclid := Z.div_mod_to_equations; lia.

Lemma encode_1 c : 0 <= c <= 0x7F -> utf8_encode_scalar c = [c].
Proof. intros H. unfold utf8_encode_scalar. destruct (Z.leb_spec c 0x7F); [reflexivity|lia]. Qed.

Lemma encode_2 c : 0x7F < c <= 0x7FF ->
  utf8_encode_scalar c = [c / 64 + 192; 128 + c mod 64].
Proof.
  intros H. unfold utf8_encode_scalar.
  destruct (Z.leb_spec c 0x7F); [lia|]. destruct (Z.leb_spec c 0x7FF); [|lia].
  rewrite !continuation_S. cbn [continuation]. rewrite Z.shiftr_div_pow2 by lia.
  cbn [Z.of_nat Z.mul Pos.mul Z.pow Z.pow_pos Pos.iter].
  rewrite Z.div_1_r. reflexivity.
Qed.

Lemma encode_3 c : 0x7FF < c <= 0xFFFF ->
  utf8_encode_scalar c = [c / 4096 + 224; 128 + (c / 64) mod 64; 128 + c mod 64].
Proof.
  intros H. unfold utf8_encode_scalar.
  destruct (Z.leb_spec c 0x7F); [lia|]. destruct (Z.leb_spec c 0x7FF); [lia|].
  destruct (Z.leb_spec c 0xFFFF); [|lia].
  rewrite !continuation_S. cbn [continuation]. rewrite Z.shiftr_div_pow2 by lia.
  change (2 ^ (6 * Z.of_nat 2)) with 4096. change (2 ^ (6 * Z.of_nat 1)) with 64.
  change (2 ^ (6 * Z.of_nat 0)) with 1.
  rewrite Z.div_1_r. reflexivity.
Qed.

Lemma encode_4 c : 0xFFFF < c ->
  utf8_encode_scalar c =
    [c / 262144 + 240; 128 + (c / 4096) mod 64; 128 + (c / 64) mod 64; 128 + c mod 64].
Proof.
  intros H. unfold utf8_encode_scalar.
  destruct (Z.leb_spec c 0x7F); [lia|]. destruct (Z.leb_spec c 0x7FF); [lia|].
  destruct (Z.leb_spec c 0xFFFF); [lia|].
  rewrite !continuation_S. cbn [continuation]. rewrite Z.shiftr_div_pow2 by lia.
  change (2 ^ (6 * Z.of_nat 3)) with 262144.
  change (2 ^ (6 * Z.of_nat 2)) with 4096. change (2 ^ (6 * Z.of_nat 1)) with 64.
  change (2 ^ (6 * Z.of_nat 0)) with 1.
  rewrite Z.div_1_r. reflexivity.
Qed.

(** The decoder reads back one encoded scalar value, then a list of them. *)
Lemma decode_encode_scalar c rest :
  scalar c ->
  utf8_decode initial (utf8_encode_scalar c ++ rest) = c :: utf8_decode initial rest.
Proof.
  unfold scalar. intros Hc.
  destruct (Z.le_gt_cases c 0x7F) as [H1|H1].
  { rewrite encode_1 by lia. cbn [app].
    rewrite utf8_decode_cons, handler_ascii by lia. reflexivity. }
  destruct (Z.le_gt_cases c 0x7FF) as [H2|H2].
  { rewrite encode_2 by lia. cbn [app].
    rewrite utf8_decode_cons, handler_lead2 by euclid.
    rewrite utf8_decode_cons, handler_cont by euclid.
    change (0 + 1 =? 1) with true. cbv iota. f_equal. euclid. }
  destruct (Z.le_gt_cases c 0xFFFF) as [H3|H3].
  { rewrite encode_3 by lia. cbn [app].
    rewrite utf8_decode_cons, handler_lead3 by euclid.
    rewrite utf8_decode_cons, handler_cont;
      [| lia
       | destruct (Z.eqb_spec (c / 4096 + 224) 224);
         destruct (Z.eqb_spec (c / 4096 + 224) 237); euclid ].
    change (0 + 1 =? 2) with false. cbv iota.
    rewrite utf8_decode_cons, handler_cont by euclid.
    change (0 + 1 + 1 =? 2) with true. cbv iota. f_equal. euclid. }
  { rewrite encode_4 by lia. cbn [app].
    rewrite utf8_decode_cons, handler_lead4 by euclid.
    rewrite utf8_decode_cons, handler_cont;
      [| lia
       | destruct (Z.eqb_spec (c / 262144 + 240) 240);
         destruct (Z.eqb_spec (c / 262144 + 240) 244); euclid ].
    change (0 + 1 =? 3) with false. cbv iota.
    rewrite utf8_decode_cons, handler_cont by euclid.
    change (0 + 1 + 1 =? 3) with false. cbv iota.
    rewrite utf8_decode_cons, handler_cont by euclid.
    change (0 + 1 + 1 + 1 =? 3) with true. cbv iota. f_equal. euclid. }
Qed.

Lemma decode_encode l rest :
  Forall scalar l ->
  utf8_decode initial (utf8_encode l ++ rest) = l ++ utf8_decode initial rest.
Proof.
  induction 1 as [|c l Hc Hl IH]; [reflexivity|].
  unfold utf8_encode in *. cbn [flat_map]. rewrite <- app_assoc.
  rewrite decode_encode_scalar by exact Hc. rewrite IH. reflexivity.
Qed.

(** UTF-16: a surrogate pair and a lone code unit of the basic plane. *)
Lemma surrogate_pair c d :
  is_lead c = true -> is_trail d = true ->
  let cp := 0x10000 + 0x400 * Z.land c 0x3FF + Z.land d 0x3FF in
  scalar cp /\ code_units cp = [c; d] /\ cp <> 0xFEFF.
Proof.
  unfold is_lead, is_trail. rewrite !andb_true_iff, !Z.leb_le. intros Hc Hd.
  rewrite (land_low c 10), (land_low d 10) by (reflexivity || lia).
  change (2 ^ 10) with 1024. cbv zeta. unfold scalar, code_units.
  split; [euclid|]. split; [|euclid].
  destruct (Z.leb_spec (65536 + 1024 * (c mod 1024) + d mod 1024) 65535); [euclid|].
  rewrite Z.shiftr_div_pow2, (land_low _ 10) by (reflexivity || lia).
  change (2 ^ 10) with 1024. f_equal; [euclid|]. f_equal. euclid.
Qed.

Lemma bmp_unit c :
  is_lead c = false -> is_trail c = false -> between 0 c 0xFFFF = true ->
  scalar c /\ code_units c = [c].
Proof.
  unfold is_lead, is_trail, scalar, code_units. rewrite between_spec.
  rewrite !andb_false_iff, !Z.leb_gt. intros Hl Ht Hr.
  split; [lia|]. destruct (Z.leb_spec c 65535); [reflexivity|lia].
Qed.

(** A well-formed string is the code units of its scalar values. *)
Lemma to_scalars_well_formed n : forall s,
  (List.length s <= n)%nat -> well_formed s = true ->
  Forall scalar (to_scalars s) /\ from_scalars (to_scalars s) = s.
Proof.
  induction n as [|n IH]; intros s Hn Hw.
  { destruct s; [split; [constructor|reflexivity]|cbn in Hn; lia]. }
  destruct s as [|c rest]; [split; [constructor|reflexivity]|].
  cbn [well_formed to_scalars] in *. cbn [List.length] in Hn.
  destruct (is_lead c) eqn:Hl.
  - destruct rest as [|d rest']; [discriminate|].
    apply andb_true_iff in Hw as [Hd Hw]. rewrite Hd. cbn [List.length] in Hn.
    destruct (IH rest') as [IH1 IH2]; [lia|exact Hw|].
    destruct (surrogate_pair c d Hl Hd) as (S1 & S2 & _).
    split; [constructor; assumption|].
    unfold from_scalars in *. cbn [flat_map]. rewrite S2, IH2. reflexivity.
  - apply andb_true_iff in Hw as [Hw Hrest]. apply andb_true_iff in Hw as [Ht Hr].
    apply negb_true_iff in Ht. rewrite Ht.
    destruct (IH rest) as [IH1 IH2]; [lia|exact Hrest|].
    destruct (bmp_unit c Hl Ht Hr) as (S1 & S2).
    split; [constructor; assumption|].
    unfold from_scalars in *. cbn [flat_map]. rewrite S2, IH2. reflexivity.
Qed.

Lemma to_scalars_no_bom s :
  starts_with_bom s = false ->
  strip_bom (to_scalars s) = to_scalars s.
Proof.
  destruct s as [|c rest]; [reflexivity|]. cbn [starts_with_bom to_scalars].
  intros Hb. destruct (is_lead c) eqn:Hl.
  - destruct rest as [|d rest']; [reflexivity|].
    destruct (is_trail d) eqn:Hd; [|reflexivity].
    destruct (surrogate_pair c d Hl Hd) as (_ & _ & S3).
    cbn [strip_bom]. apply Z.eqb_neq in S3. rewrite S3. reflexivity.
  - destruct (is_trail c); [reflexivity|]. cbn [strip_bom]. rewrite Hb. reflexivity.
Qed.

(** [TextDecoder] inverts [TextEncoder] on a well-formed string that does
    not begin with U+FEFF. *)
Lemma text_round_trip s :
  well_formed s = true -> starts_with_bom s = false ->
  TextDecoder_decode (TextEncoder_encode s) = s.
Proof.
  intros Hw Hb. unfold TextDecoder_decode, TextEncoder_encode.
  destruct (to_scalars_well_formed (List.length s) s (le_n _) Hw) as [H1 H2].
  rewrite <- (app_nil_r (utf8_encode _)), decode_encode by exact H1.
  cbn [utf8_decode initial bytes_needed Z.eqb]. rewrite app_nil_r.
  rewrite to_scalars_no_bom by exact Hb. exact H2.
Qed.

End TextCodecFacts.

(** ** The pipeline *)
Section Pipeline.
Context {KM : KeyMaterial} {C : Crypto} {P : proto.Codec} {RT : Runtime}.

(** A function that throws before any await: every run fails with that
    error, leaves the world as it was and invokes no primitive. *)
Lemma run_Throw (A : Type) (p : async A) (e : exn) (w : World) :
  p = Throw e -> run p w = mkOutcome (inl e) w [].
Proof. intros ->. reflexivity. Qed.

Lemma no_stored_preKey (l : list PrivateKey) :
  l <> [] -> (List.length l =? 0)%nat = false.
Proof. destruct l; [congruence|reflexivity]. Qed.

(** The checks of [decode], one by one: which error each raises. *)
Lemma decode_unreadable recipient bytes e :
  proto.Message_decode bytes = inl e ->
  Message.decode recipient bytes = Throw e.
Proof. intros H. unfold Message.decode. rewrite H. reflexivity. Qed.

Lemma decode_no_header recipient bytes message :
  proto.Message_decode bytes = inr message ->
  proto.header message = None ->
  Message.decode recipient bytes = Throw (Error "missing message header").
Proof. intros H H0. unfold Message.decode. rewrite H, H0. reflexivity. Qed.

Lemma decode_no_sender recipient bytes message h :
  proto.Message_decode bytes = inr message ->
  proto.header message = Some h ->
  proto.sender h = None ->
  Message.decode recipient bytes = Throw (Error "missing message sender").
Proof.
  intros H H0 H1. unfold Message.decode. rewrite H, H0, H1. reflexivity.
Qed.

Lemma decode_no_recipient recipient bytes message h s :
  proto.Message_decode bytes = inr message ->
  proto.header message = Some h ->
  proto.sender h = Some s ->
  proto.recipient h = None ->
  Message.decode recipient bytes = Throw (Error "missing message recipient").
Proof.
  intros H H0 H1 H2. unfold Message.decode. rewrite H, H0, H1, H2.
  reflexivity.
Qed.

Lemma decode_no_header_preKey recipient bytes message h s r :
  proto.Message_decode bytes = inr message ->
  proto.header message = Some h ->
  proto.sender h = Some s ->
  proto.recipient h = Some r ->
  KeyBundle.preKey r = None ->
  Message.decode recipient bytes =
    Throw (Error "missing message recipient pre key").
Proof.
  intros H H0 H1 H2 H3. unfold Message.decode. rewrite H, H0, H1, H2, H3.
  reflexivity.
Qed.

Lemma decode_no_active_preKey recipient bytes message h s r k :
  proto.Message_decode bytes = inr message ->
  proto.header message = Some h ->
  proto.sender h = Some s ->
  proto.recipient h = Some r ->
  KeyBundle.preKey r = Some k ->
  PrivateKeyBundle.preKey recipient = None ->
  Message.decode recipient bytes =
    Throw (Error "missing message recipient pre key").
Proof.
  intros H H0 H1 H2 H3 H4. unfold Message.decode.
  rewrite H, H0, H1, H2, H3, H4. reflexivity.
Qed.

Lemma decode_no_stored_preKey recipient bytes message h s r k pk :
  proto.Message_decode bytes = inr message ->
  proto.header message = Some h ->
  proto.sender h = Some s ->
  proto.recipient h = Some r ->
  KeyBundle.preKey r = Some k ->
  PrivateKeyBundle.preKey recipient = Some pk ->
  PrivateKeyBundle.preKeys recipient = [] ->
  Message.decode recipient bytes = Throw (Error "missing pre key").
Proof.
  intros H H0 H1 H2 H3 H4 H5. unfold Message.decode.
  rewrite H, H0, H1, H2, H3, H4, H5. reflexivity.
Qed.

Lemma decode_preKey_mismatch recipient bytes message h s r k pk :
  proto.Message_decode bytes = inr message ->
  proto.header message = Some h ->
  proto.sender h = Some s ->
  proto.recipient h = Some r ->
  KeyBundle.preKey r = Some k ->
  PrivateKeyBundle.preKey recipient = Some pk ->
  PrivateKeyBundle.preKeys recipient <> [] ->
  matches pk (PublicKey_new k) = false ->
  Message.decode recipient bytes = Throw (Error "recipient pre-key mismatch").
Proof.
  intros H H0 H1 H2 H3 H4 H5 H6. unfold Message.decode.
  rewrite H, H0, H1, H2, H3, H4, (no_stored_preKey _ H5), H6. reflexivity.
Qed.

Lemma decode_no_payload recipient bytes message h s r k pk :
  proto.Message_decode bytes = inr message ->
  proto.header message = Some h ->
  proto.sender h = Some s ->
  proto.recipient h = Some r ->
  KeyBundle.preKey r = Some k ->
  PrivateKeyBundle.preKey recipient = Some pk ->
  PrivateKeyBundle.preKeys recipient <> [] ->
  matches pk (PublicKey_new k) = true ->
  (proto.ciphertext message = None \/
   exists c, proto.ciphertext message = Some c /\
             Ciphertext.aes256GcmHkdfSha256 c = None) ->
  Message.decode recipient bytes = Throw (Error "missing message ciphertext").
Proof.
  intros H H0 H1 H2 H3 H4 H5 H6 H7. unfold Message.decode.
  rewrite H, H0, H1, H2, H3, H4, (no_stored_preKey _ H5), H6. cbn [negb].
  destruct H7 as [H7|(c & H7 & H8)]; rewrite H7; [reflexivity|].
  rewrite H8. reflexivity.
Qed.

(** A message that passes every check: [decode] goes on as [decrypt]. *)
Lemma decode_checked recipient bytes message h s r k pk c p :
  proto.Message_decode bytes = inr message ->
  proto.header message = Some h ->
  proto.sender h = Some s ->
  proto.recipient h = Some r ->
  KeyBundle.preKey r = Some k ->
  PrivateKeyBundle.preKey recipient = Some pk ->
  PrivateKeyBundle.preKeys recipient <> [] ->
  matches pk (PublicKey_new k) = true ->
  proto.ciphertext message = Some c ->
  Ciphertext.aes256GcmHkdfSha256 c = Some p ->
  Message.decode recipient bytes =
    (plain <- Message.decrypt (Ciphertext_new c) (KeyBundle_new s) recipient ;;
     Return (Message.set_decrypted (Message.new message)
               (TextCodec.TextDecoder_decode plain))).
Proof.
  intros H H0 H1 H2 H3 H4 H5 H6 H7 H8. unfold Message.decode.
  rewrite H, H0, H1, H2, H3, H4, (no_stored_preKey _ H5), H6, H7, H8.
  reflexivity.
Qed.

(** Every input of [decode] falls in one of the two cases. *)
Lemma decode_cases recipient bytes :
  (exists e, Message.decode recipient bytes = Throw e) \/
  (exists message h s c,
     proto.Message_decode bytes = inr message /\
     proto.header message = Some h /\
     proto.sender h = Some s /\
     Message.decode recipient bytes =
       (plain <- Message.decrypt (Ciphertext_new c) (KeyBundle_new s)
                   recipient ;;
        Return (Message.set_decrypted (Message.new message)
                  (TextCodec.TextDecoder_decode plain)))).
Proof.
  unfold Message.decode.
  destruct (proto.Message_decode bytes) as [e|message] eqn:H;
    [left; eauto|].
  destruct (proto.header message) as [h|] eqn:H0; [|left; eauto].
  destruct (proto.sender h) as [s|] eqn:H1; [|left; eauto].
  destruct (proto.recipient h) as [r|]; [|left; eauto].
  destruct (KeyBundle.preKey r) as [k|]; [|left; eauto].
  destruct (PrivateKeyBundle.preKey recipient) as [pk|]; [|left; eauto].
  destruct (List.length (PrivateKeyBundle.preKeys recipient) =? 0)%nat;
    [left; eauto|].
  destruct (matches pk (PublicKey_new k)); cbn [negb]; [|left; eauto].
  destruct (proto.ciphertext message) as [c|]; [|left; eauto].
  destruct (Ciphertext.aes256GcmHkdfSha256 c); [|left; eauto].
  right. exists message, h, s, c. repeat split; assumption.
Qed.

(** The runs of the two awaiting phases, by the primitives' answers. *)
Lemma run_encode sender recipient plaintext w :
  let derive := SharedSecret sender recipient false in
  let ad := associatedData {| ad_sender := getKeyBundle sender;
                              ad_recipient := recipient |} in
  run (Message.encode sender recipient plaintext) w =
    match perform _ derive w with
    | (inl e, w1) => mkOutcome (inl e) w1 [Invoked derive]
    | (inr secret, w1) =>
        let seal :=
          Encrypt (TextCodec.TextEncoder_encode plaintext) secret ad in
        match perform _ seal w1 with
        | (inl e, w2) => mkOutcome (inl e) w2 [Invoked derive; Invoked seal]
        | (inr c, w2) =>
            mkOutcome
              (inr (Message.set_decrypted
                      (Message.new
                         {| proto.header :=
                              Some {| proto.sender :=
                                        Some (getKeyBundle sender);
                                      proto.recipient := Some recipient |};
                            proto.ciphertext := Some c |})
                      plaintext))
              w2 [Invoked derive; Invoked seal]
        end
    end.
Proof.
  cbv zeta. unfold Message.encode, Message.encrypt, await.
  cbn [bind run].
  destruct (perform _ (SharedSecret sender recipient false) w) as [[e|secret] w1];
    [reflexivity|].
  cbn [bind run].
  destruct (perform _ (Encrypt _ secret _) w1) as [[e|c] w2]; reflexivity.
Qed.

Lemma run_decrypt_then (A : Type) encrypted sender recipient
      (k : bytes -> A) w :
  let derive := SharedSecret recipient sender true in
  let ad := associatedData {| ad_sender := sender;
                              ad_recipient := getKeyBundle recipient |} in
  run (plain <- Message.decrypt encrypted sender recipient ;; Return (k plain))
      w =
    match perform _ derive w with
    | (inl e, w1) => mkOutcome (inl e) w1 [Invoked derive]
    | (inr secret, w1) =>
        let unseal := Decrypt encrypted secret ad in
        match perform _ unseal w1 with
        | (inl e, w2) => mkOutcome (inl e) w2 [Invoked derive; Invoked unseal]
        | (inr plain, w2) =>
            mkOutcome (inr (k plain)) w2 [Invoked derive; Invoked unseal]
        end
    end.
Proof.
  cbv zeta. unfold Message.decrypt, await. cbn [bind run].
  destruct (perform _ (SharedSecret recipient sender true) w)
    as [[e|secret] w1]; [reflexivity|].
  cbn [bind run].
  destruct (perform _ (Decrypt _ secret _) w1) as [[e|c] w2]; reflexivity.
Qed.

End Pipeline.

(** ** The properties of the envelope *)
Section Envelope.
Context {KM : KeyMaterial} {C : Crypto} {P : proto.Codec} {RT : Runtime}.

(** C1 (as amended). Round trip: under the contracts of the imported code
    (the wire codec reads back what it wrote, the constructors keep the
    contents, key agreement is symmetric across the role flag, AEAD decrypt
    inverts encrypt), for every sender bundle, every recipient bundle that
    can receive and every plaintext that is well-formed UTF-16 and does not
    begin with U+FEFF: when [encode] to the recipient's published bundle
    succeeds, [decode] of the serialized message succeeds and its
    [decrypted] field is the plaintext. *)
Theorem Message_round_trip (sender recipient : PrivateKeyBundle.t)
        (plaintext : jsstring) :
  message_codec_contract ->
  KeyBundle_copy_contract ->
  Ciphertext_copy_contract ->
  shared_secret_symmetric ->
  aead_decrypt_inverts_encrypt ->
  recipient_ready recipient ->
  TextCodec.well_formed plaintext = true ->
  TextCodec.starts_with_bom plaintext = false ->
  round_trip_at sender recipient plaintext.
Proof.
  intros Hwire Hkb Hct Hsym Haead (pk & published & Hpk & Hstored & Hpub & Hm)
         Hwf Hbom w msg Henc w1.
  rewrite run_encode in Henc. cbv zeta in Henc.
  destruct (perform _ (SharedSecret sender (getKeyBundle recipient) false) w)
    as [[e|secret] w'] eqn:Hderive; [discriminate|].
  destruct (perform _ (Encrypt _ secret _) w') as [[e|c] w''] eqn:Hseal;
    [discriminate|].
  cbn [result] in Henc. injection Henc as <-.
  destruct (Haead _ _ _ _ _ _ Hseal) as [Hsuite Hopen].
  destruct (Ciphertext.aes256GcmHkdfSha256 c) as [p|] eqn:Hp; [|congruence].
  destruct (Hsym _ _ _ _ _ Hderive w1) as [w2 Hderive'].
  destruct (Hopen w2) as [w3 Hopen'].
  set (wire_msg :=
         {| proto.header :=
              Some {| proto.sender := Some (getKeyBundle sender);
                      proto.recipient := Some (getKeyBundle recipient) |};
            proto.ciphertext := Some c |}).
  assert (Hbytes : proto.Message_decode
                     (Message.toBytes
                        (Message.set_decrypted (Message.new wire_msg)
                           plaintext)) = inr wire_msg).
  { unfold Message.toBytes, Message.wire, Message.set_decrypted, Message.new,
      Header.wire, Header.new, wire_msg.
    cbn. rewrite !Hkb, Hct. apply Hwire. }
  rewrite (decode_checked _ _ _ _ _ _ _ _ _ _ Hbytes eq_refl eq_refl eq_refl
             Hpub Hpk Hstored Hm eq_refl Hp).
  rewrite run_decrypt_then. cbv zeta. rewrite Hkb, Hct, Hderive', Hopen'.
  eexists. cbn [result]. split; [reflexivity|].
  cbn [Message.set_decrypted Message.decrypted].
  rewrite TextCodecFacts.text_round_trip by assumption. reflexivity.
Qed.

(** C2. Missing-field matrix: a wire message that lacks its header, its
    sender, its recipient, the recipient's pre-key or the payload of the
    AEAD suite (the rest being present and valid) makes [decode] fail with
    the error of that field, in every world, with no primitive invoked. *)
Theorem decode_missing_field_matrix (recipient : PrivateKeyBundle.t)
        (bytes : bytes) (message : proto.Message) (w : World) :
  proto.Message_decode bytes = inr message ->
  (proto.header message = None -> rejects recipient bytes w "missing message header") /\
  (forall h,
     proto.header message = Some h ->
     proto.sender h = None ->
     rejects recipient bytes w "missing message sender") /\
  (forall h s,
     proto.header message = Some h ->
     proto.sender h = Some s ->
     proto.recipient h = None ->
     rejects recipient bytes w "missing message recipient") /\
  (forall h s r,
     proto.header message = Some h ->
     proto.sender h = Some s ->
     proto.recipient h = Some r ->
     KeyBundle.preKey r = None ->
     rejects recipient bytes w "missing message recipient pre key") /\
  (forall h s r k pk,
     proto.header message = Some h ->
     proto.sender h = Some s ->
     proto.recipient h = Some r ->
     KeyBundle.preKey r = Some k ->
     PrivateKeyBundle.preKey recipient = Some pk ->
     PrivateKeyBundle.preKeys recipient <> [] ->
     matches pk (PublicKey_new k) = true ->
     (proto.ciphertext message = None \/
      exists c, proto.ciphertext message = Some c /\
                Ciphertext.aes256GcmHkdfSha256 c = None) ->
     rejects recipient bytes w "missing message ciphertext").
Proof.
  intros Hparse. unfold rejects. repeat split; intros.
  - apply run_Throw. eapply decode_no_header; eassumption.
  - apply run_Throw. eapply decode_no_sender; eassumption.
  - apply run_Throw. eapply decode_no_recipient; eassumption.
  - apply run_Throw. eapply decode_no_header_preKey; eassumption.
  - apply run_Throw. eapply decode_no_payload; eassumption.
Qed.

(** C3. What the code does where the claim asks for two distinguishable
    failures: a header whose recipient names no pre-key, and a local bundle
    without an active pre-key, make [decode] fail with one and the same
    error. *)
Theorem prekey_failures_share_one_error
        (recipient1 recipient2 : PrivateKeyBundle.t) (bytes1 bytes2 : bytes)
        (s1 r1 s2 r2 : KeyBundle.t) (c1 c2 : option Ciphertext.t)
        (k2 : PublicKey) (w : World) :
  proto.Message_decode bytes1
    = inr (proto.mkMessage
             (Some (proto.mkMessage_Header (Some s1) (Some r1))) c1) ->
  KeyBundle.preKey r1 = None ->
  proto.Message_decode bytes2
    = inr (proto.mkMessage
             (Some (proto.mkMessage_Header (Some s2) (Some r2))) c2) ->
  KeyBundle.preKey r2 = Some k2 ->
  PrivateKeyBundle.preKey recipient2 = None ->
  result (run (Message.decode recipient1 bytes1) w)
    = inl (Error "missing message recipient pre key") /\
  result (run (Message.decode recipient2 bytes2) w)
    = result (run (Message.decode recipient1 bytes1) w).
Proof.
  intros H1 Hr1 H2 Hr2 Hlocal.
  rewrite (run_Throw _ _ _ w
             (decode_no_header_preKey recipient1 _ _ _ _ _
                H1 eq_refl eq_refl eq_refl Hr1)).
  rewrite (run_Throw _ _ _ w
             (decode_no_active_preKey recipient2 _ _ _ _ _ _
                H2 eq_refl eq_refl eq_refl Hr2 Hlocal)).
  split; reflexivity.
Qed.

(** C4. Direction of the key agreement. Every run of [encode] invokes
    [sharedSecret] exactly once, as [sender.sharedSecret(recipient, false)].
    Every run of [decode] on a message that passes the checks invokes
    [sharedSecret] exactly once, as [recipient.sharedSecret(sender, true)]
    with the sender rebuilt from the header, whatever the primitives
    answer. On any input at all, a run of [decode] invokes nothing (a check
    failed) or makes that one call: neither pipeline ever uses the opposite
    flag. *)
Theorem shared_secret_direction :
  (forall (sender : PrivateKeyBundle.t) (recipient : KeyBundle.t)
          (plaintext : jsstring) (w : World),
     shared_secret_calls
       (invoked (run (Message.encode sender recipient plaintext) w))
     = [(sender, recipient, false)]) /\
  (forall (recipient : PrivateKeyBundle.t) (bytes : bytes)
          (message : proto.Message) (h : proto.Message_Header)
          (s r : KeyBundle.t) (k : PublicKey) (pk : PrivateKey)
          (c : Ciphertext.t) (p : Aes256GcmHkdfSha256) (w : World),
     proto.Message_decode bytes = inr message ->
     proto.header message = Some h ->
     proto.sender h = Some s ->
     proto.recipient h = Some r ->
     KeyBundle.preKey r = Some k ->
     PrivateKeyBundle.preKey recipient = Some pk ->
     PrivateKeyBundle.preKeys recipient <> [] ->
     matches pk (PublicKey_new k) = true ->
     proto.ciphertext message = Some c ->
     Ciphertext.aes256GcmHkdfSha256 c = Some p ->
     shared_secret_calls (invoked (run (Message.decode recipient bytes) w))
     = [(recipient, KeyBundle_new s, true)]) /\
  (forall (recipient : PrivateKeyBundle.t) (bytes : bytes) (w : World),
     invoked (run (Message.decode recipient bytes) w) = [] \/
     exists message h s,
       proto.Message_decode bytes = inr message /\
       proto.header message = Some h /\
       proto.sender h = Some s /\
       shared_secret_calls (invoked (run (Message.decode recipient bytes) w))
       = [(recipient, KeyBundle_new s, true)]).
Proof.
  split; [|split].
  - intros sender recipient plaintext w. rewrite run_encode. cbv zeta.
    destruct (perform _ (SharedSecret sender recipient false) w)
      as [[e|secret] w1]; [reflexivity|].
    destruct (perform _ (Encrypt _ secret _) w1) as [[e|c] w2]; reflexivity.
  - intros recipient bytes message h s r k pk c p w
           F1 F2 F3 F4 F5 F6 F7 F8 F9 F10.
    rewrite (decode_checked _ _ _ _ _ _ _ _ _ _ F1 F2 F3 F4 F5 F6 F7 F8 F9
               F10).
    rewrite run_decrypt_then. cbv zeta.
    destruct (perform _ (SharedSecret recipient (KeyBundle_new s) true) w)
      as [[e|secret] w1]; [reflexivity|].
    destruct (perform _ (Decrypt _ secret _) w1) as [[e|b] w2]; reflexivity.
  - intros recipient bytes w.
    destruct (decode_cases recipient bytes)
      as [[e He]|(message & h & s & c & Hparse & Hh & Hs & Hd)].
    + left. rewrite (run_Throw _ _ _ w He). reflexivity.
    + right. exists message, h, s. repeat split; try assumption.
      rewrite Hd, run_decrypt_then. cbv zeta.
      destruct (perform _ (SharedSecret recipient (KeyBundle_new s) true) w)
        as [[e|secret] w1]; [reflexivity|].
      destruct (perform _ (Decrypt _ secret _) w1) as [[e|b] w2];
        reflexivity.
Qed.

(** C5. Associated data is directional: under the header codec's contract,
    for distinct key bundles [a] and [b] the associated data of
    (sender [a], recipient [b]) differs from that of (sender [b],
    recipient [a]). *)
Theorem associatedData_direction_sensitive (a b : KeyBundle.t) :
  header_codec_contract ->
  a <> b ->
  associatedData {| ad_sender := a; ad_recipient := b |}
    <> associatedData {| ad_sender := b; ad_recipient := a |}.
Proof.
  intros Hcodec Hab Heq. unfold associatedData in Heq. cbn in Heq.
  apply (f_equal proto.Message_Header_decode) in Heq.
  rewrite !Hcodec in Heq. congruence.
Qed.

(** C6. Header and associated data agree: when [encode] succeeds, the
    associated data it passed to the AEAD [encrypt] primitive is, byte for
    byte, the serialized header of the message it returns (the bundle
    constructor keeping the contents of what it copies). *)
Theorem encode_header_is_associated_data
        (sender : PrivateKeyBundle.t) (recipient : KeyBundle.t)
        (plaintext : jsstring) (w : World) (msg : Message.t) :
  KeyBundle_copy_contract ->
  result (run (Message.encode sender recipient plaintext) w) = inr msg ->
  exists (header : Header.t) (secret : Secret),
    Message.header msg = Some header /\
    invoked (run (Message.encode sender recipient plaintext) w)
    = [Invoked (SharedSecret sender recipient false);
       Invoked (Encrypt (TextCodec.TextEncoder_encode plaintext) secret
                        (Header.toBytes header))].
Proof.
  intros Hkb. rewrite run_encode. cbv zeta.
  destruct (perform _ (SharedSecret sender recipient false) w)
    as [[e|secret] w1]; [discriminate|].
  destruct (perform _ (Encrypt _ secret _) w1) as [[e|c] w2];
    [discriminate|].
  cbn [result invoked]. intros [= <-].
  eexists. exists secret. split; [reflexivity|].
  unfold Header.toBytes, Header.wire, Header.new, associatedData. cbn.
  rewrite !Hkb. reflexivity.
Qed.

(** C7 (as amended). Pre-key mismatch: for a wire message whose header has
    its sender, its recipient and the recipient's pre-key, and a local
    bundle that has a stored pre-key and whose active pre-key does not
    match the header's, [decode] fails with the mismatch error in every
    world, with no primitive invoked, whatever the ciphertext field is. *)
Theorem decode_rejects_preKey_mismatch (recipient : PrivateKeyBundle.t)
        (bytes : bytes) (s r : KeyBundle.t) (c : option Ciphertext.t)
        (k : PublicKey) (pk : PrivateKey) (w : World) :
  proto.Message_decode bytes
    = inr (proto.mkMessage
             (Some (proto.mkMessage_Header (Some s) (Some r))) c) ->
  KeyBundle.preKey r = Some k ->
  PrivateKeyBundle.preKey recipient = Some pk ->
  PrivateKeyBundle.preKeys recipient <> [] ->
  matches pk (PublicKey_new k) = false ->
  rejects recipient bytes w "recipient pre-key mismatch".
Proof.
  intros Hparse Hk Hpk Hstored Hm. apply run_Throw.
  exact (decode_preKey_mismatch _ _ _ _ _ _ _ _
           Hparse eq_refl eq_refl eq_refl Hk Hpk Hstored Hm).
Qed.

(** C8. Header serialization round trip: under the header codec's contract
    and with a bundle constructor that keeps the contents,
    [Header.fromBytes(h.toBytes())] succeeds and has the sender and the
    recipient of [h]. *)
Theorem Header_fromBytes_toBytes (h : Header.t) :
  header_codec_contract ->
  KeyBundle_copy_contract ->
  exists h' : Header.t,
    Header.fromBytes (Header.toBytes h) = inr h' /\
    Header.sender h' = Header.sender h /\
    Header.recipient h' = Header.recipient h.
Proof.
  intros Hcodec Hkb. unfold Header.fromBytes, Header.toBytes.
  rewrite Hcodec. eexists. split; [reflexivity|].
  unfold Header.new, Header.wire. cbn.
  destruct (Header.sender h), (Header.recipient h); rewrite ?Hkb; split;
    reflexivity.
Qed.

(** C9. The sender bundle is not validated: for a wire message that is
    valid apart from its sender, and any sender bundle at all (its identity
    key and pre-key absent or arbitrary), every run of [decode] passes the
    checks and invokes [recipient.sharedSecret(sender, true)]; if the run
    fails, the error is the one that this derivation, or the AEAD decrypt
    after it, answered. *)
Theorem decode_does_not_inspect_sender (recipient : PrivateKeyBundle.t)
        (bytes : bytes) (s r : KeyBundle.t) (c : Ciphertext.t)
        (k : PublicKey) (pk : PrivateKey) (p : Aes256GcmHkdfSha256)
        (w : World) :
  proto.Message_decode bytes
    = inr (proto.mkMessage
             (Some (proto.mkMessage_Header (Some s) (Some r))) (Some c)) ->
  KeyBundle.preKey r = Some k ->
  Ciphertext.aes256GcmHkdfSha256 c = Some p ->
  PrivateKeyBundle.preKey recipient = Some pk ->
  PrivateKeyBundle.preKeys recipient <> [] ->
  matches pk (PublicKey_new k) = true ->
  let o := run (Message.decode recipient bytes) w in
  let derive := SharedSecret recipient (KeyBundle_new s) true in
  let ad := associatedData {| ad_sender := KeyBundle_new s;
                              ad_recipient := getKeyBundle recipient |} in
  (exists rest, invoked o = Invoked derive :: rest) /\
  (forall e, result o = inl e ->
     (exists w1, perform _ derive w = (inl e, w1)) \/
     (exists secret w1 w2,
        perform _ derive w = (inr secret, w1) /\
        perform _ (Decrypt (Ciphertext_new c) secret ad) w1 = (inl e, w2))).
Proof.
  intros Hparse Hk Hp Hpk Hstored Hm. cbv zeta.
  rewrite (decode_checked _ _ _ _ _ _ _ _ _ _ Hparse eq_refl eq_refl eq_refl
             Hk Hpk Hstored Hm eq_refl Hp).
  rewrite run_decrypt_then. cbv zeta.
  destruct (perform _ (SharedSecret recipient (KeyBundle_new s) true) w)
    as [[e|secret] w1].
  { split; [eexists; reflexivity|]. cbn [result]. intros e' [= <-].
    left. eexists. reflexivity. }
  destruct (perform _ (Decrypt _ secret _) w1) as [[e|b] w2] eqn:Hopen.
  - split; [eexists; reflexivity|]. cbn [result]. intros e' [= <-].
    right. exists secret, w1, w2. split; [reflexivity|exact Hopen].
  - split; [eexists; reflexivity|]. cbn [result]. discriminate.
Qed.

(** C10. The identity check covers the pre-key only: for a wire message
    whose recipient names the pre-key that the local active pre-key
    matches, whatever identity key that recipient carries (one that differs
    from the local identity key included), the check passes and [decode]
    goes on as [decrypt] of the ciphertext. *)
Theorem decode_ignores_recipient_identity_key
        (recipient : PrivateKeyBundle.t) (bytes : bytes) (s : KeyBundle.t)
        (identity : option PublicKey) (k : PublicKey) (c : Ciphertext.t)
        (pk : PrivateKey) (p : Aes256GcmHkdfSha256) :
  let message :=
    proto.mkMessage
      (Some (proto.mkMessage_Header
               (Some s) (Some (KeyBundle.mk identity (Some k)))))
      (Some c) in
  proto.Message_decode bytes = inr message ->
  Ciphertext.aes256GcmHkdfSha256 c = Some p ->
  PrivateKeyBundle.preKey recipient = Some pk ->
  PrivateKeyBundle.preKeys recipient <> [] ->
  matches pk (PublicKey_new k) = true ->
  Message.decode recipient bytes =
    (plain <- Message.decrypt (Ciphertext_new c) (KeyBundle_new s) recipient ;;
     Return (Message.set_decrypted (Message.new message)
               (TextCodec.TextDecoder_decode plain))).
Proof.
  intros message Hparse Hp Hpk Hstored Hm.
  exact (decode_checked _ _ _ _ _ _ _ _ _ _ Hparse eq_refl eq_refl eq_refl
           eq_refl Hpk Hstored Hm eq_refl Hp).
Qed.

End Envelope.

(** ** The small instance meets the contracts *)
Module ToyFacts.
Import Toy.
#[local] Existing Instance Toy.keys.
#[local] Existing Instance Toy.crypto.
#[local] Existing Instance Toy.codec.
#[local] Existing Instance Toy.runtime.

Lemma get_key_put (k : option Z) (rest : bytes) :
  get_key (put_key k ++ rest) = Some (k, rest).
Proof. destruct k; reflexivity. Qed.

Lemma get_bundle_put (kb : KeyBundle.t) (rest : bytes) :
  get_bundle (put_bundle kb ++ rest) = Some (kb, rest).
Proof.
  destruct kb as [i p]. unfold get_bundle, put_bundle. cbn [KeyBundle.identityKey KeyBundle.preKey].
  rewrite <- app_assoc, get_key_put, get_key_put. reflexivity.
Qed.

Lemma get_opt_bundle_put (o : option KeyBundle.t) (rest : bytes) :
  get_opt_bundle (put_opt_bundle o ++ rest) = Some (o, rest).
Proof.
  destruct o as [kb|]; [|reflexivity].
  cbn [put_opt_bundle app get_opt_bundle]. rewrite get_bundle_put.
  reflexivity.
Qed.

Lemma get_header_put (h : proto.Message_Header) (rest : bytes) :
  get_header (put_header h ++ rest) = Some (h, rest).
Proof.
  destruct h as [s r]. unfold get_header, put_header.
  cbn [proto.sender proto.recipient].
  rewrite <- app_assoc, get_opt_bundle_put, get_opt_bundle_put. reflexivity.
Qed.

Lemma get_ciphertext_put (o : option Ciphertext.t) :
  get_ciphertext (put_ciphertext o) = Some o.
Proof. destruct o as [[[payload|]]|]; reflexivity. Qed.

Lemma header_codec : header_codec_contract.
Proof.
  intros h. cbn [proto.Message_Header_decode proto.Message_Header_encode codec].
  rewrite <- (app_nil_r (put_header h)), get_header_put. reflexivity.
Qed.

Lemma message_codec : message_codec_contract.
Proof.
  intros [[h|] c];
    cbn [proto.Message_decode proto.Message_encode codec];
    unfold put_message; cbn [proto.header proto.ciphertext app get_message].
  - rewrite get_header_put, get_ciphertext_put. reflexivity.
  - rewrite get_ciphertext_put. reflexivity.
Qed.

Lemma KeyBundle_copy : KeyBundle_copy_contract.
Proof. intros kb. reflexivity. Qed.

Lemma Ciphertext_copy : Ciphertext_copy_contract.
Proof. intros c. reflexivity. Qed.

Lemma secret_symmetric : shared_secret_symmetric.
Proof.
  intros [ai ap al] [bi bp bl] secret w w' H w1. exists w1.
  cbn [perform runtime] in *. injection H as H _. f_equal.
  unfold sharedSecret in *.
  cbn [getKeyBundle crypto PrivateKeyBundle.identityKey
       PrivateKeyBundle.preKey KeyBundle.identityKey KeyBundle.preKey] in *.
  destruct ai as [ai|], ap as [ap|], bi as [bi|], bp as [bp|];
    cbn [option_map] in *; try discriminate.
  injection H as <-.
  assert (E : forall a b c d : Z,
             b * public a * 65537 + c * public d
             = a * public b * 65537 + d * public c)
    by (intros; unfold public; ring).
  rewrite (E ai bp bi ap). reflexivity.
Qed.

Lemma bytes_eqb_refl (a : bytes) : bytes_eqb a a = true.
Proof.
  induction a as [|x a IH]; [reflexivity|].
  cbn [bytes_eqb]. rewrite Z.eqb_refl, IH. reflexivity.
Qed.

Lemma firstn_prefix (a b : bytes) : firstn (List.length a) (a ++ b) = a.
Proof. induction a as [|x a IH]; [reflexivity|]. cbn. rewrite IH. reflexivity. Qed.

Lemma skipn_prefix (a b : bytes) : skipn (List.length a) (a ++ b) = b.
Proof. induction a as [|x a IH]; [reflexivity|]. cbn. exact IH. Qed.

Lemma unseal_seal (nonce : Z) (plain : bytes) (secret : Z) (ad : bytes) :
  unseal (seal nonce plain secret ad) secret ad = inr plain.
Proof.
  unfold unseal, seal. cbn [Ciphertext.aes256GcmHkdfSha256].
  rewrite !Z.eqb_refl, firstn_prefix, bytes_eqb_refl, skipn_prefix.
  reflexivity.
Qed.

Lemma aead : aead_decrypt_inverts_encrypt.
Proof.
  intros plain secret ad c w w' H. cbn [perform runtime] in H.
  injection H as <- _. split; [discriminate|].
  intros w1. exists w1. cbn [perform runtime]. rewrite unseal_seal.
  reflexivity.
Qed.

Lemma bob_ready : recipient_ready bob.
Proof. exists 13, 39. repeat split. discriminate. Qed.

End ToyFacts.

(** ** The properties on concrete inputs *)
Section Examples.
Import Toy.
Existing Instance Toy.keys.
Existing Instance Toy.crypto.
Existing Instance Toy.codec.
Existing Instance Toy.runtime.

(** The pipeline runs: alice's greeting reaches bob. *)
Example greeting_delivered :
  exists (b : bytes) (out : Message.t),
    sent greeting 0 = Some b /\
    result (run (Message.decode bob b) 7) = inr out /\
    Message.decrypted out = Some greeting.
Proof. do 2 eexists. repeat split; vm_compute; reflexivity. Qed.

(** The text codec on a leading U+FEFF and on a lone surrogate. *)
Example TextDecoder_drops_BOM :
  TextCodec.TextDecoder_decode
    (TextCodec.TextEncoder_encode [0xFEFF; 0x68; 0x69]) = [0x68; 0x69].
Proof. reflexivity. Qed.

Example TextEncoder_replaces_lone_surrogate :
  TextCodec.TextDecoder_decode (TextCodec.TextEncoder_encode [0xD800])
  = [0xFFFD].
Proof. reflexivity. Qed.

(** C1, witness: the round trip of the greeting between alice and bob. *)
Lemma Message_round_trip_witness :
  message_codec_contract /\
  KeyBundle_copy_contract /\
  Ciphertext_copy_contract /\
  shared_secret_symmetric /\
  aead_decrypt_inverts_encrypt /\
  recipient_ready bob /\
  TextCodec.well_formed greeting = true /\
  TextCodec.starts_with_bom greeting = false /\
  round_trip_at alice bob greeting.
Proof.
  repeat (split; [first [ exact ToyFacts.message_codec
                        | exact ToyFacts.KeyBundle_copy
                        | exact ToyFacts.Ciphertext_copy
                        | exact ToyFacts.secret_symmetric
                        | exact ToyFacts.aead
                        | exact ToyFacts.bob_ready
                        | reflexivity ]|]).
  apply (Message_round_trip alice bob greeting);
    first [ exact ToyFacts.message_codec
          | exact ToyFacts.KeyBundle_copy
          | exact ToyFacts.Ciphertext_copy
          | exact ToyFacts.secret_symmetric
          | exact ToyFacts.aead
          | exact ToyFacts.bob_ready
          | reflexivity ].
Defined.

(** C1, counterexample: every contract holds of the instance and bob can
    receive, yet a plaintext that begins with U+FEFF comes back without it,
    and a lone surrogate comes back as U+FFFD. *)
Lemma round_trip_fails_on_BOM_and_lone_surrogate :
  message_codec_contract /\
  KeyBundle_copy_contract /\
  Ciphertext_copy_contract /\
  shared_secret_symmetric /\
  aead_decrypt_inverts_encrypt /\
  recipient_ready bob /\
  ~ round_trip_at alice bob [0xFEFF; 0x68; 0x69] /\
  ~ round_trip_at alice bob [0xD800].
Proof.
  repeat (split; [first [ exact ToyFacts.message_codec
                        | exact ToyFacts.KeyBundle_copy
                        | exact ToyFacts.Ciphertext_copy
                        | exact ToyFacts.secret_symmetric
                        | exact ToyFacts.aead
                        | exact ToyFacts.bob_ready ]|]).
  split; intros H.
  - destruct (result (run (Message.encode alice (getKeyBundle bob)
                             [0xFEFF; 0x68; 0x69]) (0 : @World keys runtime)))
      as [e|msg] eqn:E;
      [vm_compute in E; discriminate|].
    destruct (H 0 msg E 0) as (out & Hout & Hplain).
    vm_compute in E. injection E as <-.
    vm_compute in Hout. injection Hout as <-.
    vm_compute in Hplain. discriminate.
  - destruct (result (run (Message.encode alice (getKeyBundle bob)
                             [0xD800]) (0 : @World keys runtime))) as [e|msg] eqn:E;
      [vm_compute in E; discriminate|].
    destruct (H 0 msg E 0) as (out & Hout & Hplain).
    vm_compute in E. injection E as <-.
    vm_compute in Hout. injection Hout as <-.
    vm_compute in Hplain. discriminate.
Qed.

(** C2, witness: the five rows of the matrix, each on the envelope that
    lacks one field. *)
Lemma decode_missing_field_matrix_witness :
  rejects bob (put_message (proto.mkMessage None (Some payload))) 0
    "missing message header" /\
  rejects bob
    (put_message (envelope None (Some bob_bundle) (Some payload))) 0
    "missing message sender" /\
  rejects bob
    (put_message (envelope (Some alice_bundle) None (Some payload))) 0
    "missing message recipient" /\
  rejects bob
    (put_message
       (envelope (Some alice_bundle) (Some no_preKey_bundle) (Some payload)))
    0 "missing message recipient pre key" /\
  rejects bob
    (put_message
       (envelope (Some alice_bundle) (Some bob_bundle)
                 (Some (Ciphertext.mk None))))
    0 "missing message ciphertext".
Proof.
  split; [|split; [|split; [|split]]].
  - exact (proj1 (decode_missing_field_matrix bob
                    (put_message (proto.mkMessage None (Some payload)))
                    (proto.mkMessage None (Some payload)) 0 eq_refl)
             eq_refl).
  - exact (proj1 (proj2 (decode_missing_field_matrix bob
                           (put_message
                              (envelope None (Some bob_bundle) (Some payload)))
                           (envelope None (Some bob_bundle) (Some payload))
                           0 eq_refl))
             _ eq_refl eq_refl).
  - exact (proj1 (proj2 (proj2 (decode_missing_field_matrix bob
                                  (put_message
                                     (envelope (Some alice_bundle) None
                                               (Some payload)))
                                  (envelope (Some alice_bundle) None
                                            (Some payload))
                                  0 eq_refl)))
             _ _ eq_refl eq_refl eq_refl).
  - exact (proj1 (proj2 (proj2 (proj2 (decode_missing_field_matrix bob
                                         (put_message
                                            (envelope (Some alice_bundle)
                                               (Some no_preKey_bundle)
                                               (Some payload)))
                                         (envelope (Some alice_bundle)
                                            (Some no_preKey_bundle)
                                            (Some payload))
                                         0 eq_refl))))
             _ _ _ eq_refl eq_refl eq_refl eq_refl).
  - refine (proj2 (proj2 (proj2 (proj2 (decode_missing_field_matrix bob
                                          (put_message
                                             (envelope (Some alice_bundle)
                                                (Some bob_bundle)
                                                (Some (Ciphertext.mk None))))
                                          (envelope (Some alice_bundle)
                                             (Some bob_bundle)
                                             (Some (Ciphertext.mk None)))
                                          0 eq_refl))))
              _ _ _ 39 13 eq_refl eq_refl eq_refl eq_refl eq_refl _ eq_refl
              _).
    + discriminate.
    + right. eexists. split; reflexivity.
Defined.

(** C3, witness: the envelope that names no pre-key, decoded by bob, and a
    complete envelope, decoded by bob without an active pre-key. *)
Lemma prekey_failures_share_one_error_witness :
  result (run (Message.decode bob
                 (put_message
                    (envelope (Some alice_bundle) (Some no_preKey_bundle)
                              (Some payload)))) 0)
    = inl (Error "missing message recipient pre key") /\
  result (run (Message.decode bob_without_preKey
                 (put_message
                    (envelope (Some alice_bundle) (Some bob_bundle)
                              (Some payload)))) 0)
    = result (run (Message.decode bob
                     (put_message
                        (envelope (Some alice_bundle) (Some no_preKey_bundle)
                                  (Some payload)))) 0).
Proof.
  exact (prekey_failures_share_one_error bob bob_without_preKey
           (put_message
              (envelope (Some alice_bundle) (Some no_preKey_bundle)
                        (Some payload)))
           (put_message
              (envelope (Some alice_bundle) (Some bob_bundle) (Some payload)))
           alice_bundle no_preKey_bundle alice_bundle bob_bundle
           (Some payload) (Some payload) 39 0
           eq_refl eq_refl eq_refl eq_refl eq_refl).
Defined.

(** C4, witness: alice encodes her greeting for bob, and bob decodes its
    bytes: one call each, with the flags [false] and [true]. *)
Lemma shared_secret_direction_witness :
  shared_secret_calls
    (invoked (run (Message.encode alice bob_bundle greeting) 0))
  = [(alice, bob_bundle, false)] /\
  PrivateKeyBundle.preKeys bob <> [] /\
  matches 13 (PublicKey_new 39) = true /\
  shared_secret_calls (invoked (run (Message.decode bob greeting_bytes) 7))
  = [(bob, KeyBundle_new alice_bundle, true)].
Proof.
  split; [exact (proj1 (shared_secret_direction (RT := runtime))
                   alice bob_bundle greeting 0)|].
  split; [discriminate|]. split; [reflexivity|].
  refine (proj1 (proj2 (shared_secret_direction (RT := runtime)))
            bob greeting_bytes _ _ alice_bundle bob_bundle 39 13 _ _ 7
            eq_refl eq_refl eq_refl eq_refl eq_refl eq_refl _ eq_refl
            eq_refl eq_refl).
  discriminate.
Defined.

(** C5, witness: the two bundles of alice and bob, in both orders. *)
Lemma associatedData_direction_sensitive_witness :
  header_codec_contract /\
  alice_bundle <> bob_bundle /\
  associatedData {| ad_sender := alice_bundle; ad_recipient := bob_bundle |}
    <> associatedData {| ad_sender := bob_bundle;
                         ad_recipient := alice_bundle |}.
Proof.
  split; [exact ToyFacts.header_codec|].
  split; [discriminate|].
  apply (associatedData_direction_sensitive alice_bundle bob_bundle);
    [exact ToyFacts.header_codec|discriminate].
Defined.

(** C6, witness: alice's greeting to bob. *)
Lemma encode_header_is_associated_data_witness :
  KeyBundle_copy_contract /\
  exists msg : Message.t,
    result (run (Message.encode alice bob_bundle greeting) 0) = inr msg /\
    exists (header : Header.t) (secret : Secret),
      Message.header msg = Some header /\
      invoked (run (Message.encode alice bob_bundle greeting) 0)
      = [Invoked (SharedSecret alice bob_bundle false);
         Invoked (Encrypt (TextCodec.TextEncoder_encode greeting) secret
                          (Header.toBytes header))].
Proof.
  split; [exact ToyFacts.KeyBundle_copy|].
  eexists. split; [vm_compute; reflexivity|].
  apply (encode_header_is_associated_data (RT := runtime)
           alice bob_bundle greeting 0);
    [exact ToyFacts.KeyBundle_copy|reflexivity].
Defined.

(** C7, counterexample: the header is complete and bob's active pre-key
    does not match the one it names, but bob's store is empty: [decode]
    fails with the error of the empty store, not with the mismatch. *)
Lemma preKey_mismatch_behind_empty_store :
  let bytes :=
    put_message
      (envelope (Some alice_bundle) (Some stale_bundle) (Some payload)) in
  proto.Message_decode bytes
    = inr (envelope (Some alice_bundle) (Some stale_bundle) (Some payload)) /\
  KeyBundle.preKey stale_bundle = Some 40 /\
  PrivateKeyBundle.preKey bob_without_store = Some 13 /\
  matches 13 (PublicKey_new 40) = false /\
  rejects bob_without_store bytes 0 "missing pre key" /\
  ~ rejects bob_without_store bytes 0 "recipient pre-key mismatch".
Proof.
  cbv zeta. repeat split. intros H. vm_compute in H. discriminate.
Qed.

(** C7, witness: the same envelope, decoded by bob with his store. *)
Lemma decode_rejects_preKey_mismatch_witness :
  PrivateKeyBundle.preKeys bob <> [] /\
  matches 13 (PublicKey_new 40) = false /\
  rejects bob
    (put_message
       (envelope (Some alice_bundle) (Some stale_bundle) (Some payload)))
    0 "recipient pre-key mismatch".
Proof.
  split; [discriminate|]. split; [reflexivity|].
  apply (decode_rejects_preKey_mismatch (RT := runtime)
           bob _ alice_bundle stale_bundle
           (Some payload) 40 13 0);
    [reflexivity|reflexivity|reflexivity|discriminate|reflexivity].
Defined.

(** C8, witness: the header from alice to bob. *)
Lemma Header_fromBytes_toBytes_witness :
  header_codec_contract /\
  KeyBundle_copy_contract /\
  exists h' : Header.t,
    Header.fromBytes
      (Header.toBytes (Header.mk (Some alice_bundle) (Some bob_bundle) None))
      = inr h' /\
    Header.sender h' = Some alice_bundle /\
    Header.recipient h' = Some bob_bundle.
Proof.
  split; [exact ToyFacts.header_codec|].
  split; [exact ToyFacts.KeyBundle_copy|].
  apply (Header_fromBytes_toBytes
           (Header.mk (Some alice_bundle) (Some bob_bundle) None));
    [exact ToyFacts.header_codec|exact ToyFacts.KeyBundle_copy].
Defined.

(** C9, witness: an envelope whose sender has neither key passes every
    check; the run fails inside the key agreement. *)
Lemma decode_does_not_inspect_sender_witness :
  let bytes :=
    put_message
      (envelope (Some empty_bundle) (Some bob_bundle) (Some payload)) in
  let o := run (Message.decode bob bytes) 0 in
  let derive := SharedSecret bob (KeyBundle_new empty_bundle) true in
  let ad := associatedData {| ad_sender := KeyBundle_new empty_bundle;
                              ad_recipient := getKeyBundle bob |} in
  result o = inl (Error "missing key") /\
  (exists rest, invoked o = Invoked derive :: rest) /\
  (forall e, result o = inl e ->
     (exists w1, perform _ derive 0 = (inl e, w1)) \/
     (exists secret w1 w2,
        perform _ derive 0 = (inr secret, w1) /\
        perform _ (Decrypt (Ciphertext_new payload) secret ad) w1
          = (inl e, w2))).
Proof.
  cbv zeta. split; [reflexivity|].
  apply (decode_does_not_inspect_sender (RT := runtime)
           bob _ empty_bundle bob_bundle payload
           39 13 [0; 77; 0; 104] 0);
    [reflexivity|reflexivity|reflexivity|reflexivity|discriminate|reflexivity].
Defined.

(** C10, witness: an envelope addressed to bob's pre-key under an identity
    key that is not bob's. *)
Lemma decode_ignores_recipient_identity_key_witness :
  let message :=
    envelope (Some alice_bundle) (Some other_identity) (Some payload) in
  KeyBundle.identityKey other_identity
    <> KeyBundle.identityKey (getKeyBundle bob) /\
  Message.decode bob (put_message message) =
    (plain <- Message.decrypt (Ciphertext_new payload)
                (KeyBundle_new alice_bundle) bob ;;
     Return (Message.set_decrypted (Message.new message)
               (TextCodec.TextDecoder_decode plain))).
Proof.
  cbv zeta. split; [discriminate|].
  apply (decode_ignores_recipient_identity_key bob _ alice_bundle (Some 999)
           39 payload 13 [0; 77; 0; 104]);
    [reflexivity|reflexivity|reflexivity|discriminate|reflexivity].
Defined.

End Examples.

(** * Further properties of [Message.ts] *)

(** ** The text codec on any string *)
Module TextCodecMore.
Import TextCodec TextCodecFacts.

Lemma replacement_scalar : scalar 0xFFFD.
Proof. unfold scalar. lia. Qed.

(** The scalar values of a string of 16-bit code units are scalar values. *)
Lemma to_scalars_scalar n : forall s,
  (List.length s <= n)%nat -> sixteen_bit s -> Forall scalar (to_scalars s).
Proof.
  unfold sixteen_bit.
  induction n as [|n IH]; intros s Hn Hs.
  { destruct s; [constructor|cbn in Hn; lia]. }
  destruct s as [|c rest]; [constructor|].
  cbn [to_scalars]. cbn [List.length] in Hn.
  inversion Hs as [|c' rest' Hc Hrest]; subst.
  destruct (is_lead c) eqn:Hl.
  - destruct rest as [|d rest'];
      [constructor; [exact replacement_scalar|constructor]|].
    destruct (is_trail d) eqn:Hd.
    + inversion Hrest; subst. cbn [List.length] in Hn.
      constructor; [exact (proj1 (surrogate_pair c d Hl Hd))|].
      apply IH; [lia|assumption].
    + constructor; [exact replacement_scalar|]. apply IH; [lia|assumption].
  - destruct (is_trail c) eqn:Ht.
    + constructor; [exact replacement_scalar|]. apply IH; [lia|assumption].
    + constructor; [|apply IH; [lia|assumption]].
      apply (bmp_unit c Hl Ht). apply between_true. exact Hc.
Qed.

(** Decoding what was encoded, for any string of 16-bit code units. *)
Lemma TextDecoder_TextEncoder s :
  sixteen_bit s ->
  TextDecoder_decode (TextEncoder_encode s) = through_text_codec s.
Proof.
  intros Hs. unfold TextDecoder_decode, TextEncoder_encode, through_text_codec.
  rewrite <- (app_nil_r (utf8_encode _)).
  rewrite decode_encode by exact (to_scalars_scalar _ s (le_n _) Hs).
  cbn [utf8_decode initial bytes_needed Z.eqb]. rewrite app_nil_r.
  reflexivity.
Qed.

End TextCodecMore.

(** ** Inversion of the two pipelines *)
Section Inversion.
Context {KM : KeyMaterial} {C : Crypto} {P : proto.Codec} {RT : Runtime}.

(** [decode] throws before any await, or every check has passed and it
    goes on as [decrypt]. *)
Lemma decode_inversion recipient bytes :
  (exists e, Message.decode recipient bytes = Throw e) \/
  (exists message h s r k pk c p,
     proto.Message_decode bytes = inr message /\
     proto.header message = Some h /\
     proto.sender h = Some s /\
     proto.recipient h = Some r /\
     KeyBundle.preKey r = Some k /\
     PrivateKeyBundle.preKey recipient = Some pk /\
     PrivateKeyBundle.preKeys recipient <> [] /\
     matches pk (PublicKey_new k) = true /\
     proto.ciphertext message = Some c /\
     Ciphertext.aes256GcmHkdfSha256 c = Some p /\
     Message.decode recipient bytes =
       (plain <- Message.decrypt (Ciphertext_new c) (KeyBundle_new s)
                   recipient ;;
        Return (Message.set_decrypted (Message.new message)
                  (TextCodec.TextDecoder_decode plain)))).
Proof.
  unfold Message.decode.
  destruct (proto.Message_decode bytes) as [e|message] eqn:H;
    [left; eauto|].
  destruct (proto.header message) as [h|] eqn:H0; [|left; eauto].
  destruct (proto.sender h) as [s|] eqn:H1; [|left; eauto].
  destruct (proto.recipient h) as [r|] eqn:H2; [|left; eauto].
  destruct (KeyBundle.preKey r) as [k|] eqn:H3; [|left; eauto].
  destruct (PrivateKeyBundle.preKey recipient) as [pk|] eqn:H4;
    [|left; eauto].
  destruct (PrivateKeyBundle.preKeys recipient) as [|stored rest] eqn:H5;
    cbn [List.length Nat.eqb]; [left; eauto|].
  destruct (matches pk (PublicKey_new k)) eqn:H6; cbn [negb]; [|left; eauto].
  destruct (proto.ciphertext message) as [c|] eqn:H7; [|left; eauto].
  destruct (Ciphertext.aes256GcmHkdfSha256 c) as [p|] eqn:H8;
    [|left; eauto].
  right. exists message, h, s, r, k, pk, c, p.
  repeat split; try assumption. discriminate.
Qed.

(** The serialized form of what [encode] returns, read back. *)
Lemma encoded_bytes_read_back sender recipient (c : Ciphertext.t)
      (plaintext : jsstring) :
  message_codec_contract ->
  KeyBundle_copy_contract ->
  Ciphertext_copy_contract ->
  let wire_msg :=
    {| proto.header :=
         Some {| proto.sender := Some (getKeyBundle sender);
                 proto.recipient := Some recipient |};
       proto.ciphertext := Some c |} in
  proto.Message_decode
    (Message.toBytes
       (Message.set_decrypted (Message.new wire_msg) plaintext))
  = inr wire_msg.
Proof.
  intros Hwire Hkb Hct wire_msg.
  unfold Message.toBytes, Message.wire, Message.set_decrypted, Message.new,
    Header.wire, Header.new, wire_msg.
  cbn. rewrite !Hkb, Hct. apply Hwire.
Qed.

End Inversion.

(** ** Serialization, rejection and success of the envelope *)
Section Coverage.
Context {KM : KeyMaterial} {C : Crypto} {P : proto.Codec} {RT : Runtime}.

(** X1. [Message.fromBytes(m.toBytes())], under the codec's contract and
    constructors that keep the contents: it succeeds, the message read
    back has the wire fields of [m] (header with sender and recipient,
    ciphertext), and its [decrypted] field is absent, whatever [m] had
    cached. *)
Theorem Message_fromBytes_toBytes (m : Message.t) :
  message_codec_contract ->
  KeyBundle_copy_contract ->
  Ciphertext_copy_contract ->
  exists m' : Message.t,
    Message.fromBytes (Message.toBytes m) = inr m' /\
    Message.wire m' = Message.wire m /\
    Message.decrypted m' = None.
Proof.
  intros Hwire Hkb Hct. unfold Message.fromBytes, Message.toBytes.
  rewrite Hwire. eexists. split; [reflexivity|]. split; [|reflexivity].
  unfold Message.wire, Message.new, Header.wire, Header.new. cbn.
  destruct (Message.header m) as [h|], (Message.ciphertext m) as [c|];
    cbn; rewrite ?Hct; try reflexivity;
    destruct (Header.sender h), (Header.recipient h); cbn;
    rewrite ?Hkb; reflexivity.
Qed.

(** X2. The key state of the local bundle: for a wire message whose header
    is complete, a bundle without an active pre-key is rejected with
    "missing message recipient pre key", and a bundle with an active
    pre-key and no stored one with "missing pre key"; in both cases
    before the pre-key is compared or the ciphertext looked at, and with
    no primitive invoked. *)
Theorem decode_key_state_rejections (recipient : PrivateKeyBundle.t)
        (bytes : bytes) (s r : KeyBundle.t) (k : PublicKey)
        (c : option Ciphertext.t) (w : World) :
  proto.Message_decode bytes
    = inr (proto.mkMessage
             (Some (proto.mkMessage_Header (Some s) (Some r))) c) ->
  KeyBundle.preKey r = Some k ->
  (PrivateKeyBundle.preKey recipient = None ->
   rejects recipient bytes w "missing message recipient pre key") /\
  (forall pk,
     PrivateKeyBundle.preKey recipient = Some pk ->
     PrivateKeyBundle.preKeys recipient = [] ->
     rejects recipient bytes w "missing pre key").
Proof.
  intros Hparse Hk. unfold rejects. split.
  - intros Hnone. apply run_Throw.
    exact (decode_no_active_preKey _ _ _ _ _ _ _
             Hparse eq_refl eq_refl eq_refl Hk Hnone).
  - intros pk Hpk Hstore. apply run_Throw.
    exact (decode_no_stored_preKey _ _ _ _ _ _ _ _
             Hparse eq_refl eq_refl eq_refl Hk Hpk Hstore).
Qed.

(** X3. [decode] is fail-closed: a run that returns a message has read a
    wire message that passed every check, key agreement answered a secret,
    the AEAD decrypt answered a plaintext under that secret and the
    recomputed associated data, and the message returned is the one read
    with that plaintext, decoded as text, in [decrypted]. *)
Theorem decode_success_inversion (recipient : PrivateKeyBundle.t)
        (bytes : bytes) (w : World) (out : Message.t) :
  result (run (Message.decode recipient bytes) w) = inr out ->
  exists message h s r k pk c p secret w1 plain,
    proto.Message_decode bytes = inr message /\
    proto.header message = Some h /\
    proto.sender h = Some s /\
    proto.recipient h = Some r /\
    KeyBundle.preKey r = Some k /\
    PrivateKeyBundle.preKey recipient = Some pk /\
    PrivateKeyBundle.preKeys recipient <> [] /\
    matches pk (PublicKey_new k) = true /\
    proto.ciphertext message = Some c /\
    Ciphertext.aes256GcmHkdfSha256 c = Some p /\
    perform _ (SharedSecret recipient (KeyBundle_new s) true) w
      = (inr secret, w1) /\
    perform _ (Decrypt (Ciphertext_new c) secret
                 (associatedData
                    {| ad_sender := KeyBundle_new s;
                       ad_recipient := getKeyBundle recipient |})) w1
      = (inr plain, world (run (Message.decode recipient bytes) w)) /\
    out = Message.set_decrypted (Message.new message)
            (TextCodec.TextDecoder_decode plain).
Proof.
  destruct (decode_inversion recipient bytes)
    as [[e He]|(message & h & s & r & k & pk & c & p & F1 & F2 & F3 & F4 & F5
                & F6 & F7 & F8 & F9 & F10 & Hd)].
  { rewrite (run_Throw _ _ _ w He). discriminate. }
  rewrite Hd, run_decrypt_then. cbv zeta.
  destruct (perform _ (SharedSecret recipient (KeyBundle_new s) true) w)
    as [[e|secret] w1] eqn:Hderive; [discriminate|].
  destruct (perform _ (Decrypt _ secret _) w1) as [[e|plain] w2] eqn:Hopen;
    [discriminate|].
  cbn [result world]. intros [= <-].
  exists message, h, s, r, k, pk, c, p, secret, w1, plain.
  repeat split; assumption.
Qed.

(** X4. [decode] goes beyond its checks exactly when all of them pass: a
    run invokes a primitive if and only if the bytes read as a wire
    message with header, sender, recipient and recipient pre-key, the
    local bundle has an active pre-key that matches it and a stored
    pre-key, and the ciphertext carries the payload of the suite. *)
Theorem decode_reaches_key_agreement_iff (recipient : PrivateKeyBundle.t)
        (bytes : bytes) (w : World) :
  invoked (run (Message.decode recipient bytes) w) <> [] <->
  exists message h s r k pk c p,
    proto.Message_decode bytes = inr message /\
    proto.header message = Some h /\
    proto.sender h = Some s /\
    proto.recipient h = Some r /\
    KeyBundle.preKey r = Some k /\
    PrivateKeyBundle.preKey recipient = Some pk /\
    PrivateKeyBundle.preKeys recipient <> [] /\
    matches pk (PublicKey_new k) = true /\
    proto.ciphertext message = Some c /\
    Ciphertext.aes256GcmHkdfSha256 c = Some p.
Proof.
  split.
  - intros Hinv.
    destruct (decode_inversion recipient bytes)
      as [[e He]|(message & h & s & r & k & pk & c & p & F1 & F2 & F3 & F4
                  & F5 & F6 & F7 & F8 & F9 & F10 & _)].
    + rewrite (run_Throw _ _ _ w He) in Hinv. cbn in Hinv. congruence.
    + exists message, h, s, r, k, pk, c, p. repeat split; assumption.
  - intros (message & h & s & r & k & pk & c & p & F1 & F2 & F3 & F4 & F5
            & F6 & F7 & F8 & F9 & F10).
    rewrite (decode_checked _ _ _ _ _ _ _ _ _ _ F1 F2 F3 F4 F5 F6 F7 F8 F9
               F10).
    rewrite run_decrypt_then. cbv zeta.
    destruct (perform _ (SharedSecret recipient (KeyBundle_new s) true) w)
      as [[e|secret] w1]; [discriminate|].
    destruct (perform _ (Decrypt _ secret _) w1) as [[e|plain] w2];
      discriminate.
Qed.

(** X5. [encode] has no failure of its own: a failed run returns the error
    that key agreement answered, and then [encrypt] was not invoked, or
    the error that [encrypt] answered after key agreement succeeded. *)
Theorem encode_failure_comes_from_primitives
        (sender : PrivateKeyBundle.t) (recipient : KeyBundle.t)
        (plaintext : jsstring) (w : World) (e : exn) :
  let o := run (Message.encode sender recipient plaintext) w in
  let derive := SharedSecret sender recipient false in
  let ad := associatedData {| ad_sender := getKeyBundle sender;
                              ad_recipient := recipient |} in
  result o = inl e ->
  (exists w1,
     perform _ derive w = (inl e, w1) /\ encrypt_calls (invoked o) = []) \/
  (exists secret w1 w2,
     perform _ derive w = (inr secret, w1) /\
     perform _ (Encrypt (TextCodec.TextEncoder_encode plaintext) secret ad)
       w1 = (inl e, w2)).
Proof.
  cbv zeta. rewrite run_encode. cbv zeta.
  destruct (perform _ (SharedSecret sender recipient false) w)
    as [[e0|secret] w1].
  { cbn [result invoked]. intros [= <-]. left. exists w1.
    split; reflexivity. }
  destruct (perform _ (Encrypt _ secret _) w1) as [[e0|c] w2] eqn:Hseal.
  - cbn [result]. intros [= <-]. right. exists secret, w1, w2.
    split; [reflexivity|exact Hseal].
  - cbn [result]. discriminate.
Qed.

(** X6. What [encode] returns: a message whose header has both the
    sender's published bundle and the recipient bundle, whose ciphertext
    is the one [encrypt] answered for the UTF-8 bytes of the plaintext,
    and whose [decrypted] field is the plaintext as it was given. *)
Theorem encode_returns_complete_message
        (sender : PrivateKeyBundle.t) (recipient : KeyBundle.t)
        (plaintext : jsstring) (w : World) (msg : Message.t) :
  result (run (Message.encode sender recipient plaintext) w) = inr msg ->
  exists secret w1 c w2,
    perform _ (SharedSecret sender recipient false) w = (inr secret, w1) /\
    perform _ (Encrypt (TextCodec.TextEncoder_encode plaintext) secret
                 (associatedData {| ad_sender := getKeyBundle sender;
                                    ad_recipient := recipient |})) w1
      = (inr c, w2) /\
    Message.header msg
      = Some (Header.mk (Some (KeyBundle_new (getKeyBundle sender)))
                        (Some (KeyBundle_new recipient)) None) /\
    Message.ciphertext msg = Some (Ciphertext_new c) /\
    Message.decrypted msg = Some plaintext.
Proof.
  rewrite run_encode. cbv zeta.
  destruct (perform _ (SharedSecret sender recipient false) w)
    as [[e0|secret] w1] eqn:Hderive; [discriminate|].
  destruct (perform _ (Encrypt _ secret _) w1) as [[e0|c] w2] eqn:Hseal;
    [discriminate|].
  cbn [result]. intros [= <-]. exists secret, w1, c, w2.
  split; [reflexivity|]. split; [exact Hseal|]. repeat split.
Qed.

(** X7. Each pipeline keeps to its own primitive: no run of [encode]
    invokes [decrypt], no run of [decode] invokes [encrypt], and neither
    invokes more than two primitives. *)
Theorem pipelines_keep_to_their_primitive :
  (forall (sender : PrivateKeyBundle.t) (recipient : KeyBundle.t)
          (plaintext : jsstring) (w : World),
     let l := invoked (run (Message.encode sender recipient plaintext) w) in
     decrypt_calls l = [] /\ (List.length l <= 2)%nat) /\
  (forall (recipient : PrivateKeyBundle.t) (bytes : bytes) (w : World),
     let l := invoked (run (Message.decode recipient bytes) w) in
     encrypt_calls l = [] /\ (List.length l <= 2)%nat).
Proof.
  split.
  - intros sender recipient plaintext w. cbv zeta. rewrite run_encode.
    cbv zeta.
    destruct (perform _ (SharedSecret sender recipient false) w)
      as [[e|secret] w1]; [split; [reflexivity|cbn; lia]|].
    destruct (perform _ (Encrypt _ secret _) w1) as [[e|c] w2];
      (split; [reflexivity|cbn; lia]).
  - intros recipient bytes w. cbv zeta.
    destruct (decode_cases recipient bytes)
      as [[e He]|(message & h & s & c & _ & _ & _ & Hd)].
    + rewrite (run_Throw _ _ _ w He). split; [reflexivity|cbn; lia].
    + rewrite Hd, run_decrypt_then. cbv zeta.
      destruct (perform _ (SharedSecret recipient (KeyBundle_new s) true) w)
        as [[e|secret] w1]; [split; [reflexivity|cbn; lia]|].
      destruct (perform _ (Decrypt _ secret _) w1) as [[e|b] w2];
        (split; [reflexivity|cbn; lia]).
Qed.

End Coverage.

(** ** What crosses the wire between [encode] and [decode] *)
Section Wire.
Context {KM : KeyMaterial} {C : Crypto} {P : proto.Codec} {RT : Runtime}.

(** X8. The byte-level contract between the two sides, with nothing
    assumed of the cryptography: when [encode] to the published bundle of a
    recipient that can receive succeeds and its ciphertext carries the
    payload of the suite, every run of [decode] on the serialized message
    asks for the secret as [recipient.sharedSecret(sender's bundle, true)]
    and, once it has one, invokes [decrypt] with the very ciphertext
    [encrypt] answered and the very associated data [encrypt] was given. *)
Theorem decode_receives_what_encode_sealed
        (sender recipient : PrivateKeyBundle.t) (plaintext : jsstring)
        (w : World) (msg : Message.t) :
  message_codec_contract ->
  KeyBundle_copy_contract ->
  Ciphertext_copy_contract ->
  recipient_ready recipient ->
  result (run (Message.encode sender (getKeyBundle recipient) plaintext) w)
    = inr msg ->
  exists (secret : Secret) (c : Ciphertext.t) (ad : bytes),
    encrypt_calls
      (invoked
         (run (Message.encode sender (getKeyBundle recipient) plaintext) w))
    = [(TextCodec.TextEncoder_encode plaintext, secret, ad)] /\
    Message.ciphertext msg = Some c /\
    (Ciphertext.aes256GcmHkdfSha256 c <> None ->
     forall w1 : World,
       let l :=
         invoked (run (Message.decode recipient (Message.toBytes msg)) w1) in
       shared_secret_calls l = [(recipient, getKeyBundle sender, true)] /\
       forall secret' w2,
         perform _ (SharedSecret recipient (getKeyBundle sender) true) w1
           = (inr secret', w2) ->
         decrypt_calls l = [(c, secret', ad)]).
Proof.
  intros Hwire Hkb Hct (pk & published & Hpk & Hstored & Hpub & Hm).
  rewrite run_encode. cbv zeta.
  destruct (perform _ (SharedSecret sender (getKeyBundle recipient) false) w)
    as [[e|secret] w']; [discriminate|].
  destruct (perform _ (Encrypt _ secret _) w') as [[e|c] w''];
    [discriminate|].
  cbn [result invoked]. intros [= <-].
  exists secret, c. eexists. split; [reflexivity|].
  split; [cbn; rewrite Hct; reflexivity|].
  intros Hsuite w1.
  destruct (Ciphertext.aes256GcmHkdfSha256 c) as [p|] eqn:Hp; [|congruence].
  pose proof (encoded_bytes_read_back sender (getKeyBundle recipient) c
                plaintext Hwire Hkb Hct) as Hbytes.
  cbv zeta in Hbytes |- *.
  rewrite (decode_checked _ _ _ _ _ _ _ _ _ _ Hbytes eq_refl eq_refl eq_refl
             Hpub Hpk Hstored Hm eq_refl Hp).
  rewrite run_decrypt_then. cbv zeta. rewrite !Hkb, !Hct.
  destruct (perform _ (SharedSecret recipient (getKeyBundle sender) true) w1)
    as [[e|secret'] w2].
  { split; [reflexivity|]. intros ? ? [=]. }
  destruct (perform _ (Decrypt c secret' _) w2) as [[e|plain] w3];
    (split; [reflexivity|]); intros ? ? [= <- _]; reflexivity.
Qed.

(** X9. [decode] authenticates against its own bundle only: under the
    header codec's contract, the associated data of a header that names
    another recipient bundle than the one the local keys publish is never
    what a run of [decode] passes to [decrypt], whatever the bytes are. *)
Theorem decode_authenticates_own_bundle_only
        (recipient : PrivateKeyBundle.t) (bytes : bytes)
        (sender addressee : KeyBundle.t) (w : World) :
  header_codec_contract ->
  addressee <> getKeyBundle recipient ->
  Forall (fun x =>
            snd x <> associatedData {| ad_sender := sender;
                                       ad_recipient := addressee |})
         (decrypt_calls (invoked (run (Message.decode recipient bytes) w))).
Proof.
  intros Hcodec Hne.
  destruct (decode_cases recipient bytes)
    as [[e He]|(message & h & s & c & _ & _ & _ & Hd)].
  { rewrite (run_Throw _ _ _ w He). constructor. }
  rewrite Hd, run_decrypt_then. cbv zeta.
  destruct (perform _ (SharedSecret recipient (KeyBundle_new s) true) w)
    as [[e|secret] w1]; [constructor|].
  assert (Had : associatedData {| ad_sender := KeyBundle_new s;
                                  ad_recipient := getKeyBundle recipient |}
                <> associatedData {| ad_sender := sender;
                                     ad_recipient := addressee |}).
  { unfold associatedData. cbn. intros Heq.
    apply (f_equal proto.Message_Header_decode) in Heq.
    rewrite !Hcodec in Heq. congruence. }
  destruct (perform _ (Decrypt _ secret _) w1) as [[e|plain] w2];
    cbn; (constructor; [exact Had|constructor]).
Qed.

(** X10. The header's recipient bundle bears on [decode] through the
    pre-key check only: two wire messages with the same sender and
    ciphertext, whose recipients name pre-keys that both match the local
    active pre-key, are decoded alike in every world: the same primitives
    are invoked with the same arguments, the world ends the same, and the
    run fails with the same error or yields the same plaintext. *)
Theorem decode_run_ignores_header_recipient
        (recipient : PrivateKeyBundle.t) (bytes1 bytes2 : bytes)
        (s r1 r2 : KeyBundle.t) (c : option Ciphertext.t)
        (k1 k2 : PublicKey) (pk : PrivateKey) (w : World) :
  proto.Message_decode bytes1
    = inr (proto.mkMessage
             (Some (proto.mkMessage_Header (Some s) (Some r1))) c) ->
  proto.Message_decode bytes2
    = inr (proto.mkMessage
             (Some (proto.mkMessage_Header (Some s) (Some r2))) c) ->
  KeyBundle.preKey r1 = Some k1 ->
  KeyBundle.preKey r2 = Some k2 ->
  PrivateKeyBundle.preKey recipient = Some pk ->
  matches pk (PublicKey_new k1) = true ->
  matches pk (PublicKey_new k2) = true ->
  let o1 := run (Message.decode recipient bytes1) w in
  let o2 := run (Message.decode recipient bytes2) w in
  invoked o1 = invoked o2 /\
  world o1 = world o2 /\
  decrypted_of (result o1) = decrypted_of (result o2).
Proof.
  intros H1 H2 Hk1 Hk2 Hpk Hm1 Hm2. cbv zeta.
  destruct (PrivateKeyBundle.preKeys recipient) as [|stored rest] eqn:Hs.
  { rewrite (run_Throw _ _ _ w
               (decode_no_stored_preKey _ _ _ _ _ _ _ _
                  H1 eq_refl eq_refl eq_refl Hk1 Hpk Hs)).
    rewrite (run_Throw _ _ _ w
               (decode_no_stored_preKey _ _ _ _ _ _ _ _
                  H2 eq_refl eq_refl eq_refl Hk2 Hpk Hs)).
    repeat split. }
  assert (Hstored : PrivateKeyBundle.preKeys recipient <> [])
    by (rewrite Hs; discriminate).
  assert (Hpayload :
            (c = None \/
             exists c0, c = Some c0 /\
                        Ciphertext.aes256GcmHkdfSha256 c0 = None) \/
            exists c0 p, c = Some c0 /\
                         Ciphertext.aes256GcmHkdfSha256 c0 = Some p).
  { destruct c as [c0|]; [|left; left; reflexivity].
    destruct (Ciphertext.aes256GcmHkdfSha256 c0) as [p|] eqn:Hp.
    - right. exists c0, p. split; [reflexivity|exact Hp].
    - left. right. exists c0. split; [reflexivity|exact Hp]. }
  destruct Hpayload as [Hnone|(c0 & p & -> & Hp)].
  { rewrite (run_Throw _ _ _ w
               (decode_no_payload _ _ _ _ _ _ _ _
                  H1 eq_refl eq_refl eq_refl Hk1 Hpk Hstored Hm1 Hnone)).
    rewrite (run_Throw _ _ _ w
               (decode_no_payload _ _ _ _ _ _ _ _
                  H2 eq_refl eq_refl eq_refl Hk2 Hpk Hstored Hm2 Hnone)).
    repeat split. }
  rewrite (decode_checked _ _ _ _ _ _ _ _ _ _ H1 eq_refl eq_refl eq_refl
             Hk1 Hpk Hstored Hm1 eq_refl Hp).
  rewrite (decode_checked _ _ _ _ _ _ _ _ _ _ H2 eq_refl eq_refl eq_refl
             Hk2 Hpk Hstored Hm2 eq_refl Hp).
  rewrite !run_decrypt_then. cbv zeta.
  destruct (perform _ (SharedSecret recipient (KeyBundle_new s) true) w)
    as [[e|secret] w1]; [repeat split|].
  destruct (perform _ (Decrypt _ secret _) w1) as [[e|plain] w2];
    repeat split.
Qed.

(** X11. The round trip of any plaintext: under the contracts of the
    imported code, for every plaintext of 16-bit code units, when [encode]
    to the published bundle of a recipient that can receive succeeds,
    [decode] of the serialized message succeeds and its [decrypted] field
    is the plaintext with each lone surrogate replaced by U+FFFD and a
    leading U+FEFF dropped. *)
Theorem decode_encode_through_text_codec
        (sender recipient : PrivateKeyBundle.t) (plaintext : jsstring)
        (w : World) (msg : Message.t) :
  message_codec_contract ->
  KeyBundle_copy_contract ->
  Ciphertext_copy_contract ->
  shared_secret_symmetric ->
  aead_decrypt_inverts_encrypt ->
  recipient_ready recipient ->
  sixteen_bit plaintext ->
  result (run (Message.encode sender (getKeyBundle recipient) plaintext) w)
    = inr msg ->
  forall w1 : World, exists out : Message.t,
    result (run (Message.decode recipient (Message.toBytes msg)) w1)
      = inr out /\
    Message.decrypted out = Some (through_text_codec plaintext).
Proof.
  intros Hwire Hkb Hct Hsym Haead (pk & published & Hpk & Hstored & Hpub & Hm)
         Htext Henc w1.
  rewrite run_encode in Henc. cbv zeta in Henc.
  destruct (perform _ (SharedSecret sender (getKeyBundle recipient) false) w)
    as [[e|secret] w'] eqn:Hderive; [discriminate|].
  destruct (perform _ (Encrypt _ secret _) w') as [[e|c] w''] eqn:Hseal;
    [discriminate|].
  cbn [result] in Henc. injection Henc as <-.
  destruct (Haead _ _ _ _ _ _ Hseal) as [Hsuite Hopen].
  destruct (Ciphertext.aes256GcmHkdfSha256 c) as [p|] eqn:Hp; [|congruence].
  destruct (Hsym _ _ _ _ _ Hderive w1) as [w2 Hderive'].
  destruct (Hopen w2) as [w3 Hopen'].
  pose proof (encoded_bytes_read_back sender (getKeyBundle recipient) c
                plaintext Hwire Hkb Hct) as Hbytes.
  cbv zeta in Hbytes.
  rewrite (decode_checked _ _ _ _ _ _ _ _ _ _ Hbytes eq_refl eq_refl eq_refl
             Hpub Hpk Hstored Hm eq_refl Hp).
  rewrite run_decrypt_then. cbv zeta. rewrite Hkb, Hct, Hderive', Hopen'.
  eexists. cbn [result]. split; [reflexivity|].
  cbn [Message.set_decrypted Message.decrypted].
  rewrite TextCodecMore.TextDecoder_TextEncoder by exact Htext. reflexivity.
Qed.

End Wire.

(** ** The further properties on concrete inputs *)
Section MoreExamples.
Import Toy.
Existing Instance Toy.keys.
Existing Instance Toy.crypto.
Existing Instance Toy.codec.
Existing Instance Toy.runtime.

Example greeting_bytes_sent : sent greeting 0 = Some greeting_bytes.
Proof. reflexivity. Qed.

(** X1, witness: a message with a cached plaintext, written and read. *)
Lemma Message_fromBytes_toBytes_witness :
  message_codec_contract /\
  KeyBundle_copy_contract /\
  Ciphertext_copy_contract /\
  Message.decrypted cached_message = Some greeting /\
  exists m' : Message.t,
    Message.fromBytes (Message.toBytes cached_message) = inr m' /\
    Message.wire m' = Message.wire cached_message /\
    Message.decrypted m' = None.
Proof.
  split; [exact ToyFacts.message_codec|].
  split; [exact ToyFacts.KeyBundle_copy|].
  split; [exact ToyFacts.Ciphertext_copy|].
  split; [reflexivity|].
  apply (Message_fromBytes_toBytes cached_message);
    [ exact ToyFacts.message_codec
    | exact ToyFacts.KeyBundle_copy
    | exact ToyFacts.Ciphertext_copy ].
Defined.

(** X2, witness: a complete envelope, decoded by bob without an active
    pre-key and by bob without a stored one. *)
Lemma decode_key_state_rejections_witness :
  let bytes :=
    put_message
      (envelope (Some alice_bundle) (Some bob_bundle) (Some payload)) in
  rejects bob_without_preKey bytes 0 "missing message recipient pre key" /\
  rejects bob_without_store bytes 0 "missing pre key".
Proof.
  cbv zeta. split.
  - exact (proj1 (decode_key_state_rejections (RT := runtime)
                    bob_without_preKey
                    (put_message
                       (envelope (Some alice_bundle) (Some bob_bundle)
                                 (Some payload)))
                    alice_bundle bob_bundle 39 (Some payload) 0
                    eq_refl eq_refl) eq_refl).
  - exact (proj2 (decode_key_state_rejections (RT := runtime)
                    bob_without_store
                    (put_message
                       (envelope (Some alice_bundle) (Some bob_bundle)
                                 (Some payload)))
                    alice_bundle bob_bundle 39 (Some payload) 0
                    eq_refl eq_refl) 13 eq_refl eq_refl).
Defined.

(** X3, witness: bob decodes alice's greeting. *)
Lemma decode_success_inversion_witness :
  exists out : Message.t,
    result (run (Message.decode bob greeting_bytes) 7) = inr out /\
    exists message h s r k pk c p secret w1 plain,
      proto.Message_decode greeting_bytes = inr message /\
      proto.header message = Some h /\
      proto.sender h = Some s /\
      proto.recipient h = Some r /\
      KeyBundle.preKey r = Some k /\
      PrivateKeyBundle.preKey bob = Some pk /\
      PrivateKeyBundle.preKeys bob <> [] /\
      matches pk (PublicKey_new k) = true /\
      proto.ciphertext message = Some c /\
      Ciphertext.aes256GcmHkdfSha256 c = Some p /\
      perform _ (SharedSecret bob (KeyBundle_new s) true) 7
        = (inr secret, w1) /\
      perform _ (Decrypt (Ciphertext_new c) secret
                   (associatedData
                      {| ad_sender := KeyBundle_new s;
                         ad_recipient := getKeyBundle bob |})) w1
        = (inr plain, world (run (Message.decode bob greeting_bytes) 7)) /\
      out = Message.set_decrypted (Message.new message)
              (TextCodec.TextDecoder_decode plain).
Proof.
  eexists. split; [vm_compute; reflexivity|].
  apply (decode_success_inversion (RT := runtime) bob greeting_bytes 7).
  reflexivity.
Defined.

(** X5, witness: a sender without a pre-key; key agreement fails and
    [encrypt] is not invoked. *)
Lemma encode_failure_comes_from_primitives_witness :
  let o := run (Message.encode bob_without_preKey alice_bundle greeting) 0 in
  let derive := SharedSecret bob_without_preKey alice_bundle false in
  let ad := associatedData {| ad_sender := getKeyBundle bob_without_preKey;
                              ad_recipient := alice_bundle |} in
  result o = inl (Error "missing key") /\
  ((exists w1,
      perform _ derive 0 = (inl (Error "missing key"), w1) /\
      encrypt_calls (invoked o) = []) \/
   (exists secret w1 w2,
      perform _ derive 0 = (inr secret, w1) /\
      perform _ (Encrypt (TextCodec.TextEncoder_encode greeting) secret ad)
        w1 = (inl (Error "missing key"), w2))).
Proof.
  cbv zeta. split; [reflexivity|].
  apply (encode_failure_comes_from_primitives (RT := runtime)
           bob_without_preKey alice_bundle greeting 0 (Error "missing key")).
  reflexivity.
Defined.

(** X6, witness: alice's greeting to bob. *)
Lemma encode_returns_complete_message_witness :
  exists msg : Message.t,
    result (run (Message.encode alice bob_bundle greeting) 0) = inr msg /\
    exists secret w1 c w2,
      perform _ (SharedSecret alice bob_bundle false) 0 = (inr secret, w1) /\
      perform _ (Encrypt (TextCodec.TextEncoder_encode greeting) secret
                   (associatedData {| ad_sender := getKeyBundle alice;
                                      ad_recipient := bob_bundle |})) w1
        = (inr c, w2) /\
      Message.header msg
        = Some (Header.mk (Some (KeyBundle_new (getKeyBundle alice)))
                          (Some (KeyBundle_new bob_bundle)) None) /\
      Message.ciphertext msg = Some (Ciphertext_new c) /\
      Message.decrypted msg = Some greeting.
Proof.
  eexists. split; [vm_compute; reflexivity|].
  apply (encode_returns_complete_message (RT := runtime)
           alice bob_bundle greeting 0).
  reflexivity.
Defined.

(** X8, witness: alice's greeting to bob, and bob's run on its bytes. *)
Lemma decode_receives_what_encode_sealed_witness :
  message_codec_contract /\
  KeyBundle_copy_contract /\
  Ciphertext_copy_contract /\
  recipient_ready bob /\
  exists msg : Message.t,
    result (run (Message.encode alice (getKeyBundle bob) greeting) 0)
      = inr msg /\
    exists (secret : Secret) (c : Ciphertext.t) (ad : bytes),
      encrypt_calls
        (invoked (run (Message.encode alice (getKeyBundle bob) greeting) 0))
      = [(TextCodec.TextEncoder_encode greeting, secret, ad)] /\
      Message.ciphertext msg = Some c /\
      (Ciphertext.aes256GcmHkdfSha256 c <> None ->
       forall w1 : World,
         let l :=
           invoked (run (Message.decode bob (Message.toBytes msg)) w1) in
         shared_secret_calls l = [(bob, getKeyBundle alice, true)] /\
         forall secret' w2,
           perform _ (SharedSecret bob (getKeyBundle alice) true) w1
             = (inr secret', w2) ->
           decrypt_calls l = [(c, secret', ad)]).
Proof.
  split; [exact ToyFacts.message_codec|].
  split; [exact ToyFacts.KeyBundle_copy|].
  split; [exact ToyFacts.Ciphertext_copy|].
  split; [exact ToyFacts.bob_ready|].
  eexists. split; [vm_compute; reflexivity|].
  apply (decode_receives_what_encode_sealed (RT := runtime)
           alice bob greeting 0);
    [ exact ToyFacts.message_codec
    | exact ToyFacts.KeyBundle_copy
    | exact ToyFacts.Ciphertext_copy
    | exact ToyFacts.bob_ready
    | reflexivity ].
Defined.

(** X9, witness: bob decodes alice's greeting; the associated data he
    passes to [decrypt] is not that of a header addressed to bob's pre-key
    under another identity. *)
Lemma decode_authenticates_own_bundle_only_witness :
  header_codec_contract /\
  other_identity <> getKeyBundle bob /\
  decrypt_calls (invoked (run (Message.decode bob greeting_bytes) 7)) <> [] /\
  Forall (fun x =>
            snd x <> associatedData {| ad_sender := alice_bundle;
                                       ad_recipient := other_identity |})
         (decrypt_calls (invoked (run (Message.decode bob greeting_bytes) 7))).
Proof.
  split; [exact ToyFacts.header_codec|].
  split; [discriminate|].
  split; [discriminate|].
  apply (decode_authenticates_own_bundle_only (RT := runtime)
           bob greeting_bytes alice_bundle other_identity 7);
    [exact ToyFacts.header_codec|discriminate].
Defined.

(** X10, witness: one envelope addressed to bob's bundle and one to bob's
    pre-key under another identity. *)
Lemma decode_run_ignores_header_recipient_witness :
  let o1 :=
    run (Message.decode bob
           (put_message
              (envelope (Some alice_bundle) (Some bob_bundle)
                        (Some payload)))) 0 in
  let o2 :=
    run (Message.decode bob
           (put_message
              (envelope (Some alice_bundle) (Some other_identity)
                        (Some payload)))) 0 in
  bob_bundle <> other_identity /\
  invoked o1 = invoked o2 /\
  world o1 = world o2 /\
  decrypted_of (result o1) = decrypted_of (result o2).
Proof.
  cbv zeta. split; [discriminate|].
  apply (decode_run_ignores_header_recipient (RT := runtime) bob
           (put_message
              (envelope (Some alice_bundle) (Some bob_bundle) (Some payload)))
           (put_message
              (envelope (Some alice_bundle) (Some other_identity)
                        (Some payload)))
           alice_bundle bob_bundle other_identity (Some payload) 39 39 13 0);
    reflexivity.
Defined.

(** X11, witness: a plaintext with a leading U+FEFF and a lone surrogate
    comes back as "h" and U+FFFD. *)
Lemma decode_encode_through_text_codec_witness :
  message_codec_contract /\
  KeyBundle_copy_contract /\
  Ciphertext_copy_contract /\
  shared_secret_symmetric /\
  aead_decrypt_inverts_encrypt /\
  recipient_ready bob /\
  sixteen_bit ragged /\
  through_text_codec ragged = [0x68; 0xFFFD] /\
  exists msg : Message.t,
    result (run (Message.encode alice (getKeyBundle bob) ragged) 0)
      = inr msg /\
    forall w1 : World, exists out : Message.t,
      result (run (Message.decode bob (Message.toBytes msg)) w1) = inr out /\
      Message.decrypted out = Some (through_text_codec ragged).
Proof.
  assert (Htext : sixteen_bit ragged)
    by (repeat constructor; cbn; lia).
  split; [exact ToyFacts.message_codec|].
  split; [exact ToyFacts.KeyBundle_copy|].
  split; [exact ToyFacts.Ciphertext_copy|].
  split; [exact ToyFacts.secret_symmetric|].
  split; [exact ToyFacts.aead|].
  split; [exact ToyFacts.bob_ready|].
  split; [exact Htext|].
  split; [reflexivity|].
  eexists. split; [vm_compute; reflexivity|].
  apply (decode_encode_through_text_codec (RT := runtime)
           alice bob ragged 0);
    [ exact ToyFacts.message_codec
    | exact ToyFacts.KeyBundle_copy
    | exact ToyFacts.Ciphertext_copy
    | exact ToyFacts.secret_symmetric
    | exact ToyFacts.aead
    | exact ToyFacts.bob_ready
    | exact Htext
    | reflexivity ].
Defined.

End MoreExamples.
